(** * SignLens: the detection orchestrator and its inference wrappers

    A shallow embedding of [services/geminiService.ts] (the two inference
    wrappers [detectSignLanguage] and [detectSignSentence]), of the
    orchestrating part of [App.tsx] (the handlers [handleWordDetection],
    [toggleRecording], [handleFrameCapture]) and of the two mode buttons of
    [components/ControlPanel.tsx].

    Conventions of the embedding.
    - A JavaScript string is a Rocq [string]; a character is one code unit
      below 256.  [toLowerCase] and [JSON.parse] are library functions of the
      host: they are parameters of the model, and nothing proved here depends
      on what they compute.
    - A JavaScript number that is only stored ([confidence]) is a primitive
      binary64 [float]; a length, an index or a counter is a [nat]; a reading
      of [Date.now()] is a [Z].
    - [try]/[catch] is an error monad ([Exn]); React state and refs are the
      fields of one record ([Store]) threaded by a state monad ([Handler]).
    - An [async] function is cut at its [await]: the part before it runs when
      the handler is invoked and leaves the call in flight, the part after it
      runs when the reply arrives.  Each part runs to completion (JavaScript
      is single threaded and React applies the state updates of one
      synchronous run together), so one part is one step of the model.  No
      handler reads a state variable after it has written it, so writing the
      updates in sequence gives the state React renders after the run.
    - The events of the model are the invocations of the handlers and the
      replies of the service.  What decides when a handler is invoked (the
      scan timers, the [disabled] attribute of a button) is outside the
      handlers and is not modelled: every event may occur in every store.
      Module [Screen] puts these conditions on top of the handlers, and
      module [AuthService] embeds [services/authService.ts].
    - [Math.ceil(n / 15)] is computed on naturals: for the length of an
      array the binary64 quotient has the same ceiling as the exact one. *)

From Stdlib Require Import String Ascii List Bool Arith ZArith Lia.
From Stdlib Require Import PrimFloat DecimalString.
Import ListNotations.

Local Open Scope string_scope.
Local Open Scope list_scope.
Local Open Scope nat_scope.

(** ** types.ts *)

Record SignDetectionResult : Type := mkSignDetectionResult {
  isSign : bool;
  translation : string;
  confidence : float;
  description : option string
}.

Inductive DetectionMode : Type := WORD | SENTENCE.

Inductive SignLanguage : Type := ASL | ISL.

Inductive AppState : Type := IDLE | SCANNING | RECORDING | PROCESSING | ERROR.

Record HistoryItem : Type := mkHistoryItem {
  id : string;
  text : string;
  timestamp : Z;
  mode : DetectionMode
}.

Definition AppState_eqb (a b : AppState) : bool :=
  match a, b with
  | IDLE, IDLE | SCANNING, SCANNING | RECORDING, RECORDING
  | PROCESSING, PROCESSING | ERROR, ERROR => true
  | _, _ => false
  end.

(** ** JavaScript values used by the code *)

(** Truthiness of a string: every string but the empty one. *)
Definition truthy (s : string) : bool := negb (s =? "")%string.

(** Truthiness of [string | undefined]. *)
Definition truthy_opt (s : option string) : bool :=
  match s with
  | Some t => truthy t
  | None => false
  end.

(** The white space class [\s] of a regular expression, on code units below
    256: TAB, LF, VT, FF, CR, SPACE and NO-BREAK SPACE. *)
Definition is_space (c : ascii) : bool :=
  let n := nat_of_ascii c in
  ((9 <=? n) && (n <=? 13)) || (n =? 32) || (n =? 160).

(** [Date.now().toString()]: the decimal numeral. *)
Definition toString (n : Z) : string := NilZero.string_of_int (Z.to_int n).

(** [s.split(sep)] for a one-character separator. *)
Fixpoint split (sep : ascii) (s : string) : list string :=
  match s with
  | EmptyString => [EmptyString]
  | String c s' =>
      if Ascii.eqb c sep then EmptyString :: split sep s'
      else match split sep s' with
           | piece :: pieces => String c piece :: pieces
           | [] => [String c EmptyString]
           end
  end.

(** [Math.ceil(n / d)] for a length [n] and a positive constant [d]. *)
Definition Math_ceil_div (n d : nat) : nat := (n + (d - 1)) / d.

(** [xs.filter((_, i) => p(i))]: the elements whose index passes [p]; [i] is
    the index of the head. *)
Fixpoint filter_index {A : Type} (p : nat -> bool) (i : nat) (xs : list A)
  : list A :=
  match xs with
  | [] => []
  | x :: rest =>
      if p i then x :: filter_index p (S i) rest
      else filter_index p (S i) rest
  end.

(** ** Exceptions *)

Inductive Exn (A : Type) : Type :=
| Return (a : A)
| Throw (error : string).

Arguments Return {A} a.
Arguments Throw {A} error.

Class Monad (M : Type -> Type) : Type := {
  ret : forall {A : Type}, A -> M A;
  bind : forall {A B : Type}, M A -> (A -> M B) -> M B
}.

Notation "x <- c ;; k" := (bind c (fun x => k))
  (at level 61, c at next level, right associativity).
Notation "c ;; k" := (bind c (fun _ => k))
  (at level 61, right associativity).

#[export] Instance Exn_Monad : Monad Exn := {
  ret := @Return;
  bind := fun A B c k =>
    match c with
    | Return a => k a
    | Throw e => Throw e
    end
}.

(** [try { body } catch (error) { handler }]. *)
Definition try_catch {A : Type} (body : Exn A) (handler : string -> Exn A)
  : Exn A :=
  match body with
  | Return a => Return a
  | Throw e => handler e
  end.

(** ** services/geminiService.ts *)

Module GeminiService.

(** What [ai.models.generateContent] is given: the [inlineData] parts in
    order and the language the prompt is written for (the prompt text, the
    model name and the response schema are fixed by the language). *)
Record Request : Type := mkRequest {
  images : list string;
  language : SignLanguage
}.

(** What it answers: [response.text] is a string or undefined (the field
    is [response_text] here, [text] being a field of [HistoryItem]). *)
Record Response : Type := mkResponse {
  response_text : option string
}.

(** [const cleanBase64 = (data) => data.split(',')[1] || data] *)
Definition cleanBase64 (data : string) : string :=
  match nth_error (split "," data) 1 with
  | Some piece => if truthy piece then piece else data
  | None => data
  end.

Fixpoint drop_spaces (cs : list ascii) : list ascii :=
  match cs with
  | c :: rest => if is_space c then drop_spaces rest else cs
  | [] => []
  end.

(** [text.replace(/^```json\s*/, "")] *)
Definition strip_opening_fence (text : string) : string :=
  let fence := "```json" in
  if prefix fence text
  then string_of_list_ascii
         (drop_spaces (skipn (String.length fence) (list_ascii_of_string text)))
  else text.

(** [text.replace(/\s*```$/, "")]: the leftmost match takes the closing
    fence with all the white space before it. *)
Definition strip_closing_fence (text : string) : string :=
  match rev (list_ascii_of_string text) with
  | "`"%char :: "`"%char :: "`"%char :: before =>
      string_of_list_ascii (rev (drop_spaces before))
  | _ => text
  end.

Definition cleanJson (text : string) : string :=
  if negb (truthy text) then ""
  else strip_closing_fence (strip_opening_fence text).

(** The frames sent by [detectSignSentence]: at most 15, evenly spaced. *)
Definition framesToProcess (base64Images : list string) : list string :=
  if 15 <? length base64Images
  then filter_index
         (fun i => i mod Math_ceil_div (length base64Images) 15 =? 0)
         0 base64Images
  else base64Images.

Definition wordSentinel : SignDetectionResult :=
  {| isSign := false; translation := ""; confidence := 0%float;
     description := Some "Detection Error" |}.

Definition sentenceSentinel : SignDetectionResult :=
  {| isSign := false; translation := ""; confidence := 0%float;
     description := Some "Error processing sentence" |}.

Section WithHost.

(** [JSON.parse], read at the type the code casts its value to. *)
Variable JSON_parse : string -> Exn SignDetectionResult.

(** [ai.models.generateContent]: the remote service. *)
Variable generateContent : Request -> Exn Response.

(** The statements after the [await], shared by the two wrappers. *)
Definition readResponse (response : Response) : Exn SignDetectionResult :=
  match response_text response with
  | Some text =>
      if negb (truthy text) then Throw "No response text from AI"
      else JSON_parse (cleanJson text)
  | None => Throw "No response text from AI"
  end.

Definition detectSignLanguage (base64Image : string) (lang : SignLanguage)
  : Exn SignDetectionResult :=
  try_catch
    (response <- generateContent
                   {| images := [cleanBase64 base64Image];
                      language := lang |} ;;
     readResponse response)
    (fun _ => Return wordSentinel).

Definition detectSignSentence (base64Images : list string)
  (lang : SignLanguage) : Exn SignDetectionResult :=
  try_catch
    (response <- generateContent
                   {| images := map cleanBase64 (framesToProcess base64Images);
                      language := lang |} ;;
     readResponse response)
    (fun _ => Return sentenceSentinel).

End WithHost.

End GeminiService.

(** ** App.tsx: the orchestrator *)

Module App.

Import GeminiService.

(** The arguments of a call of [detectSignLanguage] that has not answered. *)
Record WordCall : Type := mkWordCall {
  word_image : string;
  word_language : SignLanguage
}.

(** The arguments of a call of [detectSignSentence] that has not answered. *)
Record SentenceCall : Type := mkSentenceCall {
  sentence_frames : list string;
  sentence_language : SignLanguage
}.

(** The component's [useState] values and [useRef] cells, and what it has
    handed to its collaborators: the inference calls still in flight (oldest
    first) and the texts passed to [speak] (oldest first). *)
Record Store : Type := mkStore {
  appState : AppState;
  detectionMode : DetectionMode;
  signLanguage : SignLanguage;
  currentPrediction : option SignDetectionResult;
  history : list HistoryItem;
  frameCount : nat;
  framesBufferRef : list string;
  processingRef : bool;
  wordInFlight : list WordCall;
  sentenceInFlight : list SentenceCall;
  spoken : list string
}.

(** The first render: [useState] and [useRef] initial values. *)
Definition initial : Store :=
  {| appState := IDLE; detectionMode := WORD; signLanguage := ASL;
     currentPrediction := None; history := []; frameCount := 0;
     framesBufferRef := []; processingRef := false;
     wordInFlight := []; sentenceInFlight := []; spoken := [] |}.

Definition Handler (A : Type) : Type := Store -> A * Store.

#[export] Instance Handler_Monad : Monad Handler := {
  ret := fun A a st => (a, st);
  bind := fun A B c k st => k (fst (c st)) (snd (c st))
}.

Definition read {A : Type} (field : Store -> A) : Handler A :=
  fun st => (field st, st).

Definition write (update : Store -> Store) : Handler unit :=
  fun st => (tt, update st).

Definition exec {A : Type} (h : Handler A) (st : Store) : Store := snd (h st).

Definition setAppState (v : AppState) : Handler unit :=
  write (fun st =>
    mkStore v (detectionMode st) (signLanguage st) (currentPrediction st)
      (history st) (frameCount st) (framesBufferRef st) (processingRef st)
      (wordInFlight st) (sentenceInFlight st) (spoken st)).

Definition setDetectionMode (v : DetectionMode) : Handler unit :=
  write (fun st =>
    mkStore (appState st) v (signLanguage st) (currentPrediction st)
      (history st) (frameCount st) (framesBufferRef st) (processingRef st)
      (wordInFlight st) (sentenceInFlight st) (spoken st)).

Definition setSignLanguage (v : SignLanguage) : Handler unit :=
  write (fun st =>
    mkStore (appState st) (detectionMode st) v (currentPrediction st)
      (history st) (frameCount st) (framesBufferRef st) (processingRef st)
      (wordInFlight st) (sentenceInFlight st) (spoken st)).

Definition setCurrentPrediction (v : option SignDetectionResult)
  : Handler unit :=
  write (fun st =>
    mkStore (appState st) (detectionMode st) (signLanguage st) v
      (history st) (frameCount st) (framesBufferRef st) (processingRef st)
      (wordInFlight st) (sentenceInFlight st) (spoken st)).

Definition setHistory (v : list HistoryItem) : Handler unit :=
  write (fun st =>
    mkStore (appState st) (detectionMode st) (signLanguage st)
      (currentPrediction st) v (frameCount st) (framesBufferRef st)
      (processingRef st) (wordInFlight st) (sentenceInFlight st) (spoken st)).

Definition setFrameCount (v : nat) : Handler unit :=
  write (fun st =>
    mkStore (appState st) (detectionMode st) (signLanguage st)
      (currentPrediction st) (history st) v (framesBufferRef st)
      (processingRef st) (wordInFlight st) (sentenceInFlight st) (spoken st)).

Definition setFramesBufferRef (v : list string) : Handler unit :=
  write (fun st =>
    mkStore (appState st) (detectionMode st) (signLanguage st)
      (currentPrediction st) (history st) (frameCount st) v
      (processingRef st) (wordInFlight st) (sentenceInFlight st) (spoken st)).

Definition setProcessingRef (v : bool) : Handler unit :=
  write (fun st =>
    mkStore (appState st) (detectionMode st) (signLanguage st)
      (currentPrediction st) (history st) (frameCount st)
      (framesBufferRef st) v (wordInFlight st) (sentenceInFlight st)
      (spoken st)).

Definition setWordInFlight (v : list WordCall) : Handler unit :=
  write (fun st =>
    mkStore (appState st) (detectionMode st) (signLanguage st)
      (currentPrediction st) (history st) (frameCount st)
      (framesBufferRef st) (processingRef st) v (sentenceInFlight st)
      (spoken st)).

Definition setSentenceInFlight (v : list SentenceCall) : Handler unit :=
  write (fun st =>
    mkStore (appState st) (detectionMode st) (signLanguage st)
      (currentPrediction st) (history st) (frameCount st)
      (framesBufferRef st) (processingRef st) (wordInFlight st) v
      (spoken st)).

Definition setSpoken (v : list string) : Handler unit :=
  write (fun st =>
    mkStore (appState st) (detectionMode st) (signLanguage st)
      (currentPrediction st) (history st) (frameCount st)
      (framesBufferRef st) (processingRef st) (wordInFlight st)
      (sentenceInFlight st) v).

(** [speak(text)]: the text is handed to the speech synthesiser (which stays
    silent when muted); the model records the call. *)
Definition speak (t : string) : Handler unit :=
  said <- read spoken ;;
  setSpoken (said ++ [t]).

(** [await detectSignLanguage(base64Image, signLanguage)]: the handler is
    suspended and the call is in flight, with the language of the render
    the handler belongs to. *)
Definition awaitDetectSignLanguage (base64Image : string) : Handler unit :=
  lang <- read signLanguage ;;
  calls <- read wordInFlight ;;
  setWordInFlight (calls ++ [mkWordCall base64Image lang]).

(** [await detectSignSentence(frames, signLanguage)]. *)
Definition awaitDetectSignSentence (frames : list string) : Handler unit :=
  lang <- read signLanguage ;;
  calls <- read sentenceInFlight ;;
  setSentenceInFlight (calls ++ [mkSentenceCall frames lang]).

(** [{ ...prev, description: d }] *)
Definition withDescription (d : string) (prev : SignDetectionResult)
  : SignDetectionResult :=
  {| isSign := isSign prev; translation := translation prev;
     confidence := confidence prev; description := Some d |}.

(** The result shown when a sentence is not understood. *)
Definition notUnderstood : SignDetectionResult :=
  {| isSign := false; translation := "Could not understand sentence";
     confidence := 0%float; description := None |}.

Section WithHost.

(** [String.prototype.toLowerCase] *)
Variable toLowerCase : string -> string.

(** [JSON.parse], as in [GeminiService]. *)
Variable JSON_parse : string -> Exn SignDetectionResult.

(** [handleWordDetection], up to its [await]. *)
Definition handleWordDetection (base64Image : string) : Handler unit :=
  processing <- read processingRef ;;
  if processing then ret tt
  else
    setProcessingRef true ;;
    setAppState PROCESSING ;;
    awaitDetectSignLanguage base64Image.

(** The updater given to [setHistory] on the word path, with the [speak] it
    makes.  [prev[prev.length - 1]] is undefined on an empty list; here the
    index is then 0 and [nth_error] finds nothing either. *)
Definition dedupAppend (result : SignDetectionResult) (t_id t_stamp : Z)
  : Handler unit :=
  prev <- read history ;;
  let lastItem := nth_error prev (length prev - 1) in
  if match lastItem with
     | None => true
     | Some item =>
         negb (toLowerCase (text item)
               =? toLowerCase (translation result))%string
     end
  then
    speak (translation result) ;;
    setHistory (prev ++ [ {| id := toString t_id;
                             text := translation result;
                             timestamp := t_stamp;
                             mode := WORD |} ])
  else setHistory prev.

(** [handleWordDetection], from its [await] on: [awaited] is what the call
    gave, [t_id] and [t_stamp] the two readings of [Date.now()]. *)
Definition handleWordDetection_resume (awaited : Exn SignDetectionResult)
  (t_id t_stamp : Z) : Handler unit :=
  match awaited with
  | Return result =>
      if isSign result && truthy (translation result) then
        setCurrentPrediction (Some result) ;;
        dedupAppend result t_id t_stamp
      else
        prev <- read currentPrediction ;;
        setCurrentPrediction
          (match prev with
           | Some p => Some (withDescription "No clear sign detected" p)
           | None => None
           end)
  | Throw _ => ret tt
  end ;;
  setProcessingRef false ;;
  setAppState SCANNING.

(** The last three statements of the stop branch of [toggleRecording]. *)
Definition finishRecording : Handler unit :=
  setFramesBufferRef [] ;;
  setFrameCount 0 ;;
  setAppState IDLE.

(** [toggleRecording], up to its [await] when it has one.  With an empty
    buffer the stop branch has no [await]: it runs to its end in the same
    synchronous run, and the update to PROCESSING is overwritten by the
    update to IDLE before React renders. *)
Definition toggleRecording : Handler unit :=
  s <- read appState ;;
  if AppState_eqb s RECORDING then
    setAppState PROCESSING ;;
    frames <- read framesBufferRef ;;
    if 0 <? length frames then awaitDetectSignSentence frames
    else finishRecording
  else
    setFramesBufferRef [] ;;
    setFrameCount 0 ;;
    setAppState RECORDING.

(** [toggleRecording], from its [await] on. *)
Definition toggleRecording_resume (awaited : Exn SignDetectionResult)
  (t_id t_stamp : Z) : Handler unit :=
  match awaited with
  | Return result =>
      if isSign result then
        setCurrentPrediction (Some result) ;;
        speak (translation result) ;;
        prev <- read history ;;
        setHistory (prev ++ [ {| id := toString t_id;
                                 text := translation result;
                                 timestamp := t_stamp;
                                 mode := SENTENCE |} ])
      else setCurrentPrediction (Some notUnderstood)
  | Throw _ => ret tt
  end ;;
  finishRecording.

(** [handleFrameCapture]: the camera's callback. *)
Definition handleFrameCapture (base64Image : string) : Handler unit :=
  m <- read detectionMode ;;
  s <- read appState ;;
  match m with
  | WORD => handleWordDetection base64Image
  | SENTENCE =>
      if AppState_eqb s RECORDING then
        frames <- read framesBufferRef ;;
        setFramesBufferRef (frames ++ [base64Image]) ;;
        n <- read frameCount ;;
        setFrameCount (n + 1)
      else ret tt
  end.

(** ControlPanel.tsx, the two mode buttons:
    [onClick={() => appState !== AppState.RECORDING && setDetectionMode(m)}] *)
Definition modeButton_onClick (m : DetectionMode) : Handler unit :=
  s <- read appState ;;
  if negb (AppState_eqb s RECORDING) then setDetectionMode m else ret tt.

(** [clearHistory={() => setHistory([])}] *)
Definition clearHistory : Handler unit := setHistory [].

(** What can happen to the component: a callback is invoked, or a call in
    flight answers.  [reply] is what [generateContent] gave for that call. *)
Inductive Event : Type :=
| FrameCaptured (base64Image : string)
| RecordClicked
| ModeClicked (m : DetectionMode)
| LanguageClicked (lang : SignLanguage)
| ClearHistoryClicked
| WordReplied (reply : Exn Response) (t_id t_stamp : Z)
| SentenceReplied (reply : Exn Response) (t_id t_stamp : Z).

(** What the oldest word call in flight resolves to on [reply]. *)
Definition wordResult (reply : Exn Response) (call : WordCall)
  : Exn SignDetectionResult :=
  detectSignLanguage JSON_parse (fun _ => reply)
    (word_image call) (word_language call).

Definition sentenceResult (reply : Exn Response) (call : SentenceCall)
  : Exn SignDetectionResult :=
  detectSignSentence JSON_parse (fun _ => reply)
    (sentence_frames call) (sentence_language call).

(** One synchronous run.  A reply with no call in flight does not happen:
    the store is left as it is. *)
Definition step (st : Store) (e : Event) : Store :=
  match e with
  | FrameCaptured base64Image => exec (handleFrameCapture base64Image) st
  | RecordClicked => exec toggleRecording st
  | ModeClicked m => exec (modeButton_onClick m) st
  | LanguageClicked lang => exec (setSignLanguage lang) st
  | ClearHistoryClicked => exec clearHistory st
  | WordReplied reply t_id t_stamp =>
      match wordInFlight st with
      | call :: rest =>
          exec (setWordInFlight rest ;;
                handleWordDetection_resume (wordResult reply call)
                  t_id t_stamp) st
      | [] => st
      end
  | SentenceReplied reply t_id t_stamp =>
      match sentenceInFlight st with
      | call :: rest =>
          exec (setSentenceInFlight rest ;;
                toggleRecording_resume (sentenceResult reply call)
                  t_id t_stamp) st
      | [] => st
      end
  end.

Definition run (st : Store) (events : list Event) : Store :=
  fold_left step events st.

End WithHost.

End App.

(** ** components/ControlPanel.tsx: which buttons can be clicked *)

Module ControlPanel.

(** The props the mode buttons and the record button read. *)
Record Props : Type := mkProps {
  appState : AppState;
  detectionMode : DetectionMode;
  isCameraActive : bool
}.

(** The mode switcher and the action buttons stand under
    [{isCameraActive && (...)}]. *)
Definition modeSwitcherRendered (p : Props) : bool := isCameraActive p.

(** [disabled={appState === AppState.RECORDING}], on both mode buttons. *)
Definition modeButtonDisabled (p : Props) : bool :=
  AppState_eqb (appState p) RECORDING.

(** The record button is the second branch of
    [{detectionMode === 'WORD' ? (...) : (...)}]. *)
Definition recordButtonRendered (p : Props) : bool :=
  isCameraActive p &&
  match detectionMode p with
  | WORD => false
  | SENTENCE => true
  end.

(** [disabled={appState === AppState.PROCESSING}] *)
Definition recordButtonDisabled (p : Props) : bool :=
  AppState_eqb (appState p) PROCESSING.

(** A click reaches [onClick] when the button is rendered and not
    disabled. *)
Definition modeButtonClickable (p : Props) : bool :=
  modeSwitcherRendered p && negb (modeButtonDisabled p).

Definition recordButtonClickable (p : Props) : bool :=
  recordButtonRendered p && negb (recordButtonDisabled p).

End ControlPanel.

(** ** App.tsx and CameraHandler.tsx: when the handlers are invoked

    The page is taken as rendered after every action: an interval exists,
    and a button can be clicked, according to the store the action finds.
    The sign-in screen is left out: while it is shown there is no button
    and no camera, so it only takes actions away. *)

Module Screen.

(** The store of the orchestrator and the camera switch
    ([isCameraActive]). *)
Record Page : Type := mkPage {
  store : App.Store;
  isCameraActive : bool
}.

Definition start : Page :=
  {| store := App.initial; isCameraActive := false |}.

Definition props (pg : Page) : ControlPanel.Props :=
  {| ControlPanel.appState := App.appState (store pg);
     ControlPanel.detectionMode := App.detectionMode (store pg);
     ControlPanel.isCameraActive := isCameraActive pg |}.

(** [isAutoMode={isCameraActive && detectionMode === 'WORD' &&
    appState !== AppState.PROCESSING}] *)
Definition isAutoMode (pg : Page) : bool :=
  isCameraActive pg &&
  match App.detectionMode (store pg) with
  | WORD => true
  | SENTENCE => false
  end &&
  negb (AppState_eqb (App.appState (store pg)) PROCESSING).

(** CameraHandler's scan interval exists while [isAutoMode && isActive]. *)
Definition scanTimerRuns (pg : Page) : bool :=
  isAutoMode pg && isCameraActive pg.

(** App's recording interval exists while
    [appState === AppState.RECORDING && detectionMode === 'SENTENCE']. *)
Definition recordingTimerRuns (pg : Page) : bool :=
  AppState_eqb (App.appState (store pg)) RECORDING &&
  match App.detectionMode (store pg) with
  | WORD => false
  | SENTENCE => true
  end.

(** What happens on the page.  A tick of the scan interval calls the
    [captureFrame] of the render the interval was created in, hence the
    [handleWordDetection] of that render, with that render's language
    ([closureLanguage]); a tick of the recording interval goes through
    [cameraRef] to the handler of the last render. *)
Inductive Action : Type :=
| ScanTick (base64Image : string) (closureLanguage : SignLanguage)
| RecordingTick (base64Image : string)
| RecordButton
| ModeButton (m : DetectionMode)
| LanguageButton (lang : SignLanguage)
| ClearHistoryButton
| CameraButton
| LogoutButton
| WordReply (reply : Exn GeminiService.Response) (t_id t_stamp : Z)
| SentenceReply (reply : Exn GeminiService.Response) (t_id t_stamp : Z).

(** An interval ticks while it exists and a button is clicked while it can
    be; a reply can always arrive. *)
Definition possible (pg : Page) (a : Action) : bool :=
  match a with
  | ScanTick _ _ => scanTimerRuns pg
  | RecordingTick _ => recordingTimerRuns pg
  | RecordButton => ControlPanel.recordButtonClickable (props pg)
  | ModeButton _ => ControlPanel.modeButtonClickable (props pg)
  | _ => true
  end.

Section WithHost.

Variable toLowerCase : string -> string.
Variable JSON_parse : string -> Exn SignDetectionResult.

(** [handleFrameCapture] of a render whose language was [lang]. *)
Definition staleFrameCapture (base64Image : string) (lang : SignLanguage)
  (st : App.Store) : App.Store :=
  let selected := App.signLanguage st in
  App.exec (App.setSignLanguage selected)
    (App.step toLowerCase JSON_parse
       (App.exec (App.setSignLanguage lang) st)
       (App.FrameCaptured base64Image)).

Definition withStore (st : App.Store) (pg : Page) : Page :=
  {| store := st; isCameraActive := isCameraActive pg |}.

Definition perform (pg : Page) (a : Action) : Page :=
  let orchestrate e :=
    withStore (App.step toLowerCase JSON_parse (store pg) e) pg in
  match a with
  | ScanTick base64Image lang =>
      withStore (staleFrameCapture base64Image lang (store pg)) pg
  | RecordingTick base64Image => orchestrate (App.FrameCaptured base64Image)
  | RecordButton => orchestrate App.RecordClicked
  | ModeButton m => orchestrate (App.ModeClicked m)
  | LanguageButton lang => orchestrate (App.LanguageClicked lang)
  | ClearHistoryButton => orchestrate App.ClearHistoryClicked
  | CameraButton =>
      {| store := store pg; isCameraActive := negb (isCameraActive pg) |}
  | LogoutButton => {| store := store pg; isCameraActive := false |}
  | WordReply reply t_id t_stamp =>
      orchestrate (App.WordReplied reply t_id t_stamp)
  | SentenceReply reply t_id t_stamp =>
      orchestrate (App.SentenceReplied reply t_id t_stamp)
  end.

(** An action that is not possible does not happen. *)
Definition act (pg : Page) (a : Action) : Page :=
  if possible pg a then perform pg a else pg.

Definition session (actions : list Action) : Page :=
  fold_left act actions start.

End WithHost.

End Screen.

(** ** services/authService.ts *)

Module AuthService.

(** types.ts: [User]. *)
Record User : Type := mkUser {
  id : string;
  name : string;
  email : string
}.

(** [StoredUser extends User]: the fields of a user and the password. *)
Record StoredUser : Type := mkStoredUser {
  account : User;
  password : string
}.

Definition USERS_KEY : string := "signlens_users".
Definition SESSION_KEY : string := "signlens_session".

(** The browser's [localStorage]: the items by key, and whether the
    browser denies access to it, in which case every operation throws. *)
Record LocalStorage : Type := mkLocalStorage {
  items : string -> option string;
  denied : bool
}.

Definition emptyStorage : LocalStorage :=
  {| items := fun _ => None; denied := false |}.

(** A computation on the storage that returns or throws; what it wrote
    before throwing stays written. *)
Definition Storage (A : Type) : Type := LocalStorage -> Exn A * LocalStorage.

#[export] Instance Storage_Monad : Monad Storage := {
  ret := fun A a ls => (Return a, ls);
  bind := fun A B c k ls =>
    match fst (c ls) with
    | Return a => k a (snd (c ls))
    | Throw e => (Throw e, snd (c ls))
    end
}.

Definition throw {A : Type} (e : string) : Storage A :=
  fun ls => (Throw e, ls).

Definition lift {A : Type} (x : Exn A) : Storage A :=
  fun ls => (x, ls).

Definition tryStorage {A : Type} (body : Storage A)
  (handler : string -> Storage A) : Storage A :=
  fun ls =>
    match fst (body ls) with
    | Return a => (Return a, snd (body ls))
    | Throw e => handler e (snd (body ls))
    end.

Definition localStorage_getItem (key : string) : Storage (option string) :=
  fun ls =>
    if denied ls then (Throw "SecurityError", ls)
    else (Return (items ls key), ls).

Definition localStorage_setItem (key value : string) : Storage unit :=
  fun ls =>
    if denied ls then (Throw "SecurityError", ls)
    else (Return tt,
          {| items := fun k => if (k =? key)%string then Some value
                               else items ls k;
             denied := denied ls |}).

Definition localStorage_removeItem (key : string) : Storage unit :=
  fun ls =>
    if denied ls then (Throw "SecurityError", ls)
    else (Return tt,
          {| items := fun k => if (k =? key)%string then None
                               else items ls k;
             denied := denied ls |}).

(** The safe wrapper [storage]. *)
Definition storage_getItem (key : string) : Storage (option string) :=
  tryStorage (localStorage_getItem key) (fun _ => ret None).

Definition storage_setItem (key value : string) : Storage unit :=
  tryStorage (localStorage_setItem key value) (fun _ => ret tt).

Definition storage_removeItem (key : string) : Storage unit :=
  tryStorage (localStorage_removeItem key) (fun _ => ret tt).

Section WithHost.

(** [String.prototype.toLowerCase] *)
Variable toLowerCase : string -> string.

(** [JSON.stringify] and [JSON.parse], at the two types the code uses them
    at: the list of stored users and the session user. *)
Variable JSON_stringify_users : list StoredUser -> string.
Variable JSON_parse_users : string -> Exn (list StoredUser).
Variable JSON_stringify_user : User -> string.
Variable JSON_parse_user : string -> Exn User.

(** The first two statements of [login] and of [register] after the delay:
    [const usersRaw = storage.getItem(USERS_KEY);
     const users = usersRaw ? JSON.parse(usersRaw) : [];] *)
Definition readUsers : Storage (list StoredUser) :=
  usersRaw <- storage_getItem USERS_KEY ;;
  match usersRaw with
  | Some raw => if truthy raw then lift (JSON_parse_users raw) else ret []
  | None => ret []
  end.

(** [login], from the end of its delay. *)
Definition login (email_ password_ : string) : Storage User :=
  users <- readUsers ;;
  match find (fun u =>
                (toLowerCase (email (account u)) =? toLowerCase email_)%string
                && (password u =? password_)%string) users with
  | None => throw "Invalid email or password"
  | Some user =>
      let sessionUser :=
        {| id := id (account user); name := name (account user);
           email := email (account user) |} in
      storage_setItem SESSION_KEY (JSON_stringify_user sessionUser) ;;
      ret sessionUser
  end.

(** [register], from the end of its delay; [now] is the reading of
    [Date.now()]. *)
Definition register (name_ email_ password_ : string) (now : Z)
  : Storage User :=
  users <- readUsers ;;
  match find (fun u =>
                (toLowerCase (email (account u))
                 =? toLowerCase email_)%string) users with
  | Some _ => throw "Email already registered"
  | None =>
      let newUser :=
        {| account := {| id := toString now; name := name_;
                         email := email_ |};
           password := password_ |} in
      storage_setItem USERS_KEY (JSON_stringify_users (users ++ [newUser])) ;;
      let sessionUser :=
        {| id := id (account newUser); name := name (account newUser);
           email := email (account newUser) |} in
      storage_setItem SESSION_KEY (JSON_stringify_user sessionUser) ;;
      ret sessionUser
  end.

(** [logout], from the end of its delay. *)
Definition logout : Storage unit := storage_removeItem SESSION_KEY.

Definition getCurrentUser : Storage (option User) :=
  session <- storage_getItem SESSION_KEY ;;
  match session with
  | Some s =>
      if truthy s then user <- lift (JSON_parse_user s) ;; ret (Some user)
      else ret None
  | None => ret None
  end.

(** One call of the service. *)
Inductive Call : Type :=
| Login (email_ password_ : string)
| Register (name_ email_ password_ : string) (now : Z)
| Logout.

(** The storage a call leaves. *)
Definition serve (ls : LocalStorage) (c : Call) : LocalStorage :=
  match c with
  | Login email_ password_ => snd (login email_ password_ ls)
  | Register name_ email_ password_ now =>
      snd (register name_ email_ password_ now ls)
  | Logout => snd (logout ls)
  end.

Definition serveAll (ls : LocalStorage) (calls : list Call) : LocalStorage :=
  fold_left serve calls ls.

End WithHost.

End AuthService.

(** ** A concrete host, for running the model *)

Module Host.

Definition lowerChar (c : ascii) : ascii :=
  let n := nat_of_ascii c in
  if (65 <=? n) && (n <=? 90) then ascii_of_nat (n + 32) else c.

(** [toLowerCase] on a string of ASCII characters. *)
Fixpoint toLowerCase (s : string) : string :=
  match s with
  | EmptyString => EmptyString
  | String c rest => String (lowerChar c) (toLowerCase rest)
  end.

(** A reader for replies written [+translation] (a sign) or [-translation]
    (no sign); any other text is a syntax error.  It stands for [JSON.parse]
    in the concrete runs only. *)
Definition parse (s : string) : Exn SignDetectionResult :=
  match s with
  | String "+"%char t =>
      Return {| isSign := true; translation := t; confidence := 1%float;
                description := None |}
  | String "-"%char t =>
      Return {| isSign := false; translation := t; confidence := 0%float;
                description := None |}
  | _ => Throw "SyntaxError"
  end.

(** The service answering with the text [s]. *)
Definition answers (s : string) : Exn GeminiService.Response :=
  Return {| GeminiService.response_text := Some s |}.

(** [n] distinct frames: the numerals of [0], ..., [n - 1]. *)
Definition frames (n : nat) : list string :=
  map (fun i => toString (Z.of_nat i)) (seq 0 n).

End Host.

(** ** A concrete serialisation, for running the account service *)

Module HostStorage.

Import AuthService.

(** A text is written character by character, each after a [1], and closed
    by a [0]; it stands for a JSON string in the concrete runs only. *)
Fixpoint writeText (s : string) : string :=
  match s with
  | EmptyString => "0"
  | String c rest => String "1" (String c (writeText rest))
  end.

Fixpoint readText (t : string) : option (string * string) :=
  match t with
  | String "0" rest => Some (EmptyString, rest)
  | String "1" (String c rest) =>
      match readText rest with
      | Some (s, r) => Some (String c s, r)
      | None => None
      end
  | _ => None
  end.

Definition writeUser (u : User) : string :=
  (writeText (id u) ++ writeText (name u) ++ writeText (email u))%string.

Definition readUser (t : string) : option (User * string) :=
  match readText t with
  | Some (i, t1) =>
      match readText t1 with
      | Some (n, t2) =>
          match readText t2 with
          | Some (e, t3) => Some ({| id := i; name := n; email := e |}, t3)
          | None => None
          end
      | None => None
      end
  | None => None
  end.

Definition writeStored (u : StoredUser) : string :=
  (writeUser (account u) ++ writeText (password u))%string.

Definition readStored (t : string) : option (StoredUser * string) :=
  match readUser t with
  | Some (a, t1) =>
      match readText t1 with
      | Some (p, t2) => Some ({| account := a; password := p |}, t2)
      | None => None
      end
  | None => None
  end.

(** A list is written element by element, each after a [1], and closed by
    a [0]. *)
Fixpoint stringifyUsers (us : list StoredUser) : string :=
  match us with
  | [] => "0"
  | u :: rest => String "1" (writeStored u ++ stringifyUsers rest)
  end.

Fixpoint readUsers (fuel : nat) (t : string)
  : option (list StoredUser * string) :=
  match fuel with
  | 0 => None
  | S fuel' =>
      match t with
      | String "0" rest => Some ([], rest)
      | String "1" rest =>
          match readStored rest with
          | Some (u, r) =>
              match readUsers fuel' r with
              | Some (us, r') => Some (u :: us, r')
              | None => None
              end
          | None => None
          end
      | _ => None
      end
  end.

Definition parseUsers (t : string) : Exn (list StoredUser) :=
  match readUsers (S (String.length t)) t with
  | Some (us, EmptyString) => Return us
  | _ => Throw "SyntaxError"
  end.

Definition stringifyUser (u : User) : string := writeUser u.

Definition parseUser (t : string) : Exn User :=
  match readUser t with
  | Some (u, EmptyString) => Return u
  | _ => Throw "SyntaxError"
  end.

End HostStorage.

(** ** What the claims speak of *)

(** [s] is found in [l] in the order of [l]. *)
Inductive subsequence {A : Type} : list A -> list A -> Prop :=
| subsequence_nil : subsequence [] []
| subsequence_keep (x : A) (s l : list A) :
    subsequence s l -> subsequence (x :: s) (x :: l)
| subsequence_skip (x : A) (s l : list A) :
    subsequence s l -> subsequence s (x :: l).

(** A string with no character other than white space (the empty string
    included). *)
Definition blank (s : string) : bool :=
  forallb is_space (list_ascii_of_string s).

(** The three ways a call of the service fails before a result is read:
    the request, the missing text, the parse. *)
Inductive InferenceFailure (JSON_parse : string -> Exn SignDetectionResult)
  : Exn GeminiService.Response -> Prop :=
| RequestError (e : string) :
    InferenceFailure JSON_parse (Throw e)
| NoResponseText (response : GeminiService.Response) :
    truthy_opt (GeminiService.response_text response) = false ->
    InferenceFailure JSON_parse (Return response)
| ParseError (response : GeminiService.Response) (t e : string) :
    GeminiService.response_text response = Some t ->
    JSON_parse (GeminiService.cleanJson t) = Throw e ->
    InferenceFailure JSON_parse (Return response).

(** The entry the handlers append for [result]: its text is the translation;
    [t_id] and [t_stamp] are the two readings of [Date.now()]. *)
Definition entryOf (m : DetectionMode) (result : SignDetectionResult)
  (t_id t_stamp : Z) : HistoryItem :=
  {| id := toString t_id; text := translation result;
     timestamp := t_stamp; mode := m |}.

(** [item] was made from [result], the result of the inference call that
    event [e] answers. *)
Definition createdFrom (JSON_parse : string -> Exn SignDetectionResult)
  (item : HistoryItem) (result : SignDetectionResult) (e : App.Event)
  : Prop :=
  match e with
  | App.WordReplied reply t_id t_stamp =>
      (exists call, App.wordResult JSON_parse reply call = Return result) /\
      item = entryOf WORD result t_id t_stamp
  | App.SentenceReplied reply t_id t_stamp =>
      (exists call,
         App.sentenceResult JSON_parse reply call = Return result) /\
      item = entryOf SENTENCE result t_id t_stamp
  | _ => False
  end.

(** The most recently appended entry of a history. *)
Definition newest (h : list HistoryItem) : option HistoryItem :=
  match rev h with
  | item :: _ => Some item
  | [] => None
  end.

(** The history is empty, or the text of its newest entry differs from the
    translation when case is ignored. *)
Definition differsFromNewest (toLowerCase : string -> string)
  (h : list HistoryItem) (result : SignDetectionResult) : Prop :=
  match newest h with
  | Some item => toLowerCase (text item) <> toLowerCase (translation result)
  | None => True
  end.

(** The guard is set exactly while one word call is in flight. *)
Definition guarded (st : App.Store) : Prop :=
  length (App.wordInFlight st) = if App.processingRef st then 1 else 0.

(** The values of [appState] after each synchronous run of [events]. *)
Fixpoint visited (toLowerCase : string -> string)
  (JSON_parse : string -> Exn SignDetectionResult)
  (st : App.Store) (events : list App.Event) : list AppState :=
  match events with
  | [] => []
  | e :: rest =>
      let st' := App.step toLowerCase JSON_parse st e in
      App.appState st' :: visited toLowerCase JSON_parse st' rest
  end.

(** No comma in [s]. *)
Definition commaFree (s : string) : bool :=
  forallb (fun c => negb (Ascii.eqb c ",")) (list_ascii_of_string s).

(** [s] neither starts nor ends with white space. *)
Definition trimmed (s : string) : bool :=
  match list_ascii_of_string s with
  | c :: _ => negb (is_space c)
  | [] => true
  end
  &&
  match rev (list_ascii_of_string s) with
  | c :: _ => negb (is_space c)
  | [] => true
  end.

(** A reply wrapped in a Markdown fence: the opening fence, white space,
    the body, white space, the closing fence. *)
Definition fenced (space1 body space2 : string) : string :=
  ("```json" ++ space1 ++ body ++ space2 ++ "```")%string.

(** [e] is the answer of an inference call. *)
Definition isReply (e : App.Event) : bool :=
  match e with
  | App.WordReplied _ _ _ | App.SentenceReplied _ _ _ => true
  | _ => false
  end.

Definition isClearHistory (e : App.Event) : bool :=
  match e with
  | App.ClearHistoryClicked => true
  | _ => false
  end.

(** No inference call is in flight and the guard is clear. *)
Definition settled (st : App.Store) : Prop :=
  App.processingRef st = false /\ App.wordInFlight st = [] /\
  App.sentenceInFlight st = [].

(** What each session state goes with on the page: at rest nothing is in
    flight and the buffer is empty; a recording is in sentence mode with
    nothing in flight; PROCESSING has exactly one call in flight, either a
    word call (guard set, buffer empty) or a sentence call (guard clear). *)
Definition coherent (st : App.Store) : Prop :=
  match App.appState st with
  | IDLE | SCANNING => settled st /\ App.framesBufferRef st = []
  | RECORDING => settled st /\ App.detectionMode st = SENTENCE
  | PROCESSING =>
      (App.processingRef st = true /\ length (App.wordInFlight st) = 1 /\
       App.sentenceInFlight st = [] /\ App.framesBufferRef st = []) \/
      (App.processingRef st = false /\ App.wordInFlight st = [] /\
       length (App.sentenceInFlight st) = 1)
  | ERROR => False
  end.

(** What [login] and [register] take the stored users to be: the item
    under [USERS_KEY] parsed, and no user when the item is missing, empty
    or out of reach. *)
Definition accounts (JSON_parse_users : string -> Exn (list AuthService.StoredUser))
  (ls : AuthService.LocalStorage) : Exn (list AuthService.StoredUser) :=
  fst (AuthService.readUsers JSON_parse_users ls).

(** The email of a stored user, case ignored. *)
Definition emailKey (toLowerCase : string -> string)
  (u : AuthService.StoredUser) : string :=
  toLowerCase (AuthService.email (AuthService.account u)).

(** * Properties of the inference wrappers *)

Section FilterIndex.

Context {A : Type}.

Lemma filter_index_subsequence (p : nat -> bool) (xs : list A) :
  forall i, subsequence (filter_index p i xs) xs.
Proof.
  induction xs as [|x rest IH]; intros i; simpl.
  - constructor.
  - destruct (p i); constructor; apply IH.
Qed.

(** Keeping the indices divisible by [s], from a head of index [i] that is
    [d] short of a multiple of [s]: the [k]-th element kept is [k] strides
    after the first one. *)
Lemma filter_index_stride (s : nat) (xs : list A) :
  0 < s ->
  forall i d k,
    d < s -> (exists q, i + d = s * q) ->
    nth_error (filter_index (fun j => j mod s =? 0) i xs) k
    = nth_error xs (d + k * s).
Proof.
  intros Hs.
  induction xs as [|x rest IH]; intros i d k Hd [q Hq]; simpl.
  - transitivity (@None A); [destruct k | destruct (d + k * s)]; reflexivity.
  - destruct (Nat.eqb_spec (i mod s) 0) as [Hi|Hi].
    + apply Nat.Div0.mod_divides in Hi. destruct Hi as [c Hc].
      assert (q <= c).
      { apply Nat.nlt_ge. intros Hlt.
        pose proof (Nat.mul_le_mono_l (S c) q s Hlt). lia. }
      assert (d = 0) by nia. subst d.
      destruct k as [|k]; [reflexivity|].
      simpl nth_error at 1.
      rewrite (IH (S i) (s - 1) k); [| lia | exists (S c); nia].
      replace (0 + S k * s) with (S (s - 1 + k * s)) by lia.
      reflexivity.
    + destruct d as [|d].
      * exfalso. apply Hi. apply Nat.Div0.mod_divides.
        exists q. lia.
      * rewrite (IH (S i) d k); [reflexivity | lia | exists q; lia].
Qed.

End FilterIndex.

Lemma Math_ceil_div_15 (n : nat) :
  0 < n ->
  n <= 15 * Math_ceil_div n 15 /\ 15 * (Math_ceil_div n 15 - 1) < n.
Proof.
  intros Hn. unfold Math_ceil_div.
  pose proof (Nat.div_mod_eq (n + (15 - 1)) 15) as E.
  pose proof (Nat.mod_upper_bound (n + (15 - 1)) 15) as B.
  lia.
Qed.

(** C2. [detectSignSentence] sends a list of at most 15 frames unchanged.
    For a longer list of [n] frames, with [stride] the least whole number
    with [n <= 15 * stride] (that is, [ceil (n / 15)]), it sends exactly the
    frames whose index is a multiple of [stride]: the [k]-th frame sent is
    the frame of index [k * stride], for every [k].  There are at most 15 of
    them, they come in the order of the original list, and the first one is
    the first frame. *)
Theorem framesToProcess_downsamples (base64Images : list string) :
  let n := length base64Images in
  let stride := Math_ceil_div n 15 in
  let sent := GeminiService.framesToProcess base64Images in
  (n <= 15 -> sent = base64Images) /\
  (15 < n ->
     (n <= 15 * stride /\ 15 * (stride - 1) < n) /\
     (forall k, nth_error sent k = nth_error base64Images (k * stride)) /\
     length sent <= 15 /\
     subsequence sent base64Images /\
     (exists first, nth_error base64Images 0 = Some first /\
                    nth_error sent 0 = Some first)).
Proof.
  intros n stride sent. subst sent. unfold GeminiService.framesToProcess.
  fold n. fold stride. split; intros Hn.
  - destruct (Nat.ltb_spec 15 n); [lia | reflexivity].
  - destruct (Nat.ltb_spec 15 n); [| lia].
    assert (Hc : n <= 15 * stride /\ 15 * (stride - 1) < n)
      by (apply Math_ceil_div_15; lia).
    assert (Hs : 0 < stride) by lia.
    assert (Hk : forall k,
      nth_error (filter_index (fun i => i mod stride =? 0) 0 base64Images) k
      = nth_error base64Images (k * stride)).
    { intros k.
      rewrite (filter_index_stride stride base64Images Hs 0 0 k);
        [reflexivity | lia | exists 0; lia]. }
    repeat split; try apply Hc; try apply Hk.
    + apply nth_error_None. rewrite Hk. apply nth_error_None. fold n. lia.
    + apply filter_index_subsequence.
    + destruct base64Images as [|first rest]; [simpl in n; lia|].
      exists first. split; [reflexivity|].
      rewrite Hk. reflexivity.
Qed.

(** The property of the spec's test: 37 frames. *)
Lemma framesToProcess_downsamples_witness :
  GeminiService.framesToProcess (Host.frames 37)
  = map (fun i => toString (Z.of_nat (3 * i))) (seq 0 13)
  /\ length (GeminiService.framesToProcess (Host.frames 37)) <= 15
  /\ subsequence (GeminiService.framesToProcess (Host.frames 37))
       (Host.frames 37).
Proof.
  split; [vm_compute; reflexivity|].
  pose proof (framesToProcess_downsamples (Host.frames 37)) as H.
  cbv zeta in H. destruct H as [_ H].
  assert (L : 15 < length (Host.frames 37)) by (vm_compute; lia).
  destruct (H L) as (_ & _ & Hlen & Hsub & _).
  split; assumption.
Defined.

Section Wrappers.

Import GeminiService.

Variable JSON_parse : string -> Exn SignDetectionResult.

(** The body of the [try] of either wrapper throws on each failure. *)
Lemma try_body_throws (reply : Exn Response) :
  InferenceFailure JSON_parse reply ->
  exists e, (response <- reply ;; readResponse JSON_parse response) = Throw e.
Proof.
  intros [e | response Htext | response t e Htext Hparse]; simpl.
  - exists e. reflexivity.
  - unfold readResponse.
    destruct (response_text response) as [t|]; simpl in Htext.
    + rewrite Htext. eexists. reflexivity.
    + eexists. reflexivity.
  - unfold readResponse. rewrite Htext.
    destruct (truthy t); simpl.
    + exists e. exact Hparse.
    + eexists. reflexivity.
Qed.

Lemma detectSignLanguage_returns generateContent base64Image lang :
  exists result,
    detectSignLanguage JSON_parse generateContent base64Image lang
    = Return result.
Proof.
  unfold detectSignLanguage, try_catch.
  destruct (_ <- generateContent _ ;; _) as [result | e]; eauto.
Qed.

Lemma detectSignSentence_returns generateContent base64Images lang :
  exists result,
    detectSignSentence JSON_parse generateContent base64Images lang
    = Return result.
Proof.
  unfold detectSignSentence, try_catch.
  destruct (_ <- generateContent _ ;; _) as [result | e]; eauto.
Qed.

Lemma detectSignLanguage_failure generateContent base64Image lang :
  InferenceFailure JSON_parse
    (generateContent {| images := [cleanBase64 base64Image];
                        language := lang |}) ->
  detectSignLanguage JSON_parse generateContent base64Image lang
  = Return wordSentinel.
Proof.
  intros F. destruct (try_body_throws _ F) as [e He].
  unfold detectSignLanguage. rewrite He. reflexivity.
Qed.

Lemma detectSignSentence_failure generateContent base64Images lang :
  InferenceFailure JSON_parse
    (generateContent
       {| images := map cleanBase64 (framesToProcess base64Images);
          language := lang |}) ->
  detectSignSentence JSON_parse generateContent base64Images lang
  = Return sentenceSentinel.
Proof.
  intros F. destruct (try_body_throws _ F) as [e He].
  unfold detectSignSentence. rewrite He. reflexivity.
Qed.

(** C10. Neither wrapper throws: for every service, image (or list of
    frames) and language it returns a result.  When the request fails, the
    response has no text, or the text does not parse, the result is the
    wrapper's sentinel, whose [isSign] is false, whose [translation] is the
    empty string and whose [confidence] is 0. *)
Theorem wrappers_return_sentinel_on_failure
  (generateContent : Request -> Exn Response) :
  (forall base64Image lang,
     (exists result,
        detectSignLanguage JSON_parse generateContent base64Image lang
        = Return result) /\
     (InferenceFailure JSON_parse
        (generateContent {| images := [cleanBase64 base64Image];
                            language := lang |}) ->
      detectSignLanguage JSON_parse generateContent base64Image lang
      = Return wordSentinel)) /\
  (forall base64Images lang,
     (exists result,
        detectSignSentence JSON_parse generateContent base64Images lang
        = Return result) /\
     (InferenceFailure JSON_parse
        (generateContent
           {| images := map cleanBase64 (framesToProcess base64Images);
              language := lang |}) ->
      detectSignSentence JSON_parse generateContent base64Images lang
      = Return sentenceSentinel)) /\
  (isSign wordSentinel = false /\ translation wordSentinel = ""%string /\
   confidence wordSentinel = 0%float) /\
  (isSign sentenceSentinel = false /\
   translation sentenceSentinel = ""%string /\
   confidence sentenceSentinel = 0%float).
Proof.
  split; [| split; [| split; repeat split]].
  - intros base64Image lang. split.
    + apply detectSignLanguage_returns.
    + apply detectSignLanguage_failure.
  - intros base64Images lang. split.
    + apply detectSignSentence_returns.
    + apply detectSignSentence_failure.
Qed.

End Wrappers.

(** A request that fails, a response without text and a text that does not
    parse, on the concrete host. *)
Lemma wrappers_return_sentinel_on_failure_witness :
  GeminiService.detectSignLanguage Host.parse (fun _ => Throw "offline")
    "data:image/jpeg;base64,AAAA" ASL
  = Return GeminiService.wordSentinel
  /\ GeminiService.detectSignSentence Host.parse
       (fun _ => Return {| GeminiService.response_text := None |})
       (Host.frames 3) ISL
     = Return GeminiService.sentenceSentinel
  /\ GeminiService.detectSignSentence Host.parse
       (fun _ => Host.answers "not json") (Host.frames 20) ASL
     = Return GeminiService.sentenceSentinel.
Proof.
  split; [| split].
  - apply (wrappers_return_sentinel_on_failure Host.parse
             (fun _ => Throw "offline")).
    apply RequestError.
  - apply (wrappers_return_sentinel_on_failure Host.parse
             (fun _ => Return {| GeminiService.response_text := None |})).
    apply NoResponseText. reflexivity.
  - apply (wrappers_return_sentinel_on_failure Host.parse
             (fun _ => Host.answers "not json")).
    apply (ParseError Host.parse _ "not json" "SyntaxError");
      reflexivity.
Defined.

(** * Properties of the orchestrator *)

Section Orchestrator.

Import GeminiService App.

Variable toLowerCase : string -> string.
Variable JSON_parse : string -> Exn SignDetectionResult.

Local Abbreviation step := (App.step toLowerCase JSON_parse).
Local Abbreviation run := (App.run toLowerCase JSON_parse).
Local Abbreviation wordResult := (App.wordResult JSON_parse).
Local Abbreviation sentenceResult := (App.sentenceResult JSON_parse).

(** Case analysis along the branches of a handler. *)
Ltac branches :=
  repeat (cbn in *;
          match goal with
          | |- context [match ?x with _ => _ end] =>
              is_var x; destruct x eqn:?
          | |- context [match ?x with _ => _ end] => destruct x eqn:?
          end);
  cbn in *.

Lemma run_snoc (st : Store) (es : list Event) (e : Event) :
  run st (es ++ [e]) = step (run st es) e.
Proof. apply fold_left_app. Qed.

Lemma wordResult_returns (reply : Exn Response) (call : WordCall) :
  exists result, wordResult reply call = Return result.
Proof. apply detectSignLanguage_returns. Qed.

Lemma sentenceResult_returns (reply : Exn Response) (call : SentenceCall) :
  exists result, sentenceResult reply call = Return result.
Proof. apply detectSignSentence_returns. Qed.

Lemma wordResult_failure (reply : Exn Response) (call : WordCall) :
  InferenceFailure JSON_parse reply ->
  wordResult reply call = Return wordSentinel.
Proof.
  intros F. unfold App.wordResult.
  apply (detectSignLanguage_failure JSON_parse (fun _ => reply)). exact F.
Qed.

Lemma sentenceResult_failure (reply : Exn Response) (call : SentenceCall) :
  InferenceFailure JSON_parse reply ->
  sentenceResult reply call = Return sentenceSentinel.
Proof.
  intros F. unfold App.sentenceResult.
  apply (detectSignSentence_failure JSON_parse (fun _ => reply)). exact F.
Qed.

(** ** The in-flight guard *)

Lemma handleWordDetection_guard_set (st : Store) (base64Image : string) :
  processingRef st = true ->
  exec (handleWordDetection base64Image) st = st.
Proof.
  intros H. unfold handleWordDetection, exec. cbn. rewrite H. reflexivity.
Qed.

Lemma step_guarded (st : Store) (e : Event) :
  guarded st -> guarded (step st e).
Proof.
  unfold guarded.
  destruct e; unfold App.step, exec, handleFrameCapture, handleWordDetection,
    toggleRecording, modeButton_onClick, clearHistory,
    App.handleWordDetection_resume, App.toggleRecording_resume, dedupAppend;
    branches; intros; try rewrite length_app in *; cbn in *; try lia.
  match goal with H : wordInFlight _ = [] |- _ => rewrite H end.
  reflexivity.
Qed.

Lemma run_guarded (events : list Event) : guarded (run initial events).
Proof.
  induction events as [|e events IH] using rev_ind.
  - reflexivity.
  - rewrite run_snoc. apply step_guarded, IH.
Qed.

(** C1. A frame that reaches [handleWordDetection] while the guard is set
    changes nothing: no call is issued and no state is written.  From the
    first render on, whatever the sequence of frames, clicks and replies,
    the guard is set exactly while a call of [detectSignLanguage] is in
    flight, and at most one is. *)
Theorem at_most_one_word_call_in_flight :
  (forall st base64Image,
     processingRef st = true ->
     exec (handleWordDetection base64Image) st = st) /\
  (forall st base64Image,
     detectionMode st = WORD -> processingRef st = true ->
     step st (FrameCaptured base64Image) = st) /\
  (forall events,
     guarded (run initial events) /\
     length (wordInFlight (run initial events)) <= 1).
Proof.
  split; [| split].
  - apply handleWordDetection_guard_set.
  - intros st base64Image Hm Hp. cbn. unfold exec, handleFrameCapture.
    cbn. rewrite Hm. apply handleWordDetection_guard_set, Hp.
  - intros events. pose proof (run_guarded events) as G.
    split; [exact G|]. unfold guarded in G.
    destruct (processingRef (run initial events)); lia.
Qed.

(** ** What a reply does to the history *)

Lemma last_index_newest (h : list HistoryItem) :
  nth_error h (length h - 1) = newest h.
Proof.
  unfold newest. destruct h as [|item h] using rev_ind; [reflexivity|].
  rewrite rev_app_distr, length_app. cbn.
  rewrite nth_error_app2 by lia.
  replace (length h + 1 - 1 - length h) with 0 by lia. reflexivity.
Qed.

Lemma newest_snoc (h : list HistoryItem) (item : HistoryItem) :
  newest (h ++ [item]) = Some item.
Proof. unfold newest. rewrite rev_app_distr. reflexivity. Qed.

Lemma differsFromNewest_dec (h : list HistoryItem)
  (result : SignDetectionResult) :
  {differsFromNewest toLowerCase h result}
  + {~ differsFromNewest toLowerCase h result}.
Proof.
  unfold differsFromNewest. destruct (newest h) as [item|]; [| left; exact I].
  destruct (string_dec (toLowerCase (text item))
              (toLowerCase (translation result))); [right | left]; tauto.
Qed.

Lemma truthy_nonempty (s : string) : truthy s = true <-> s <> ""%string.
Proof.
  unfold truthy. destruct (String.eqb_spec s ""); cbn; split; intros;
    try discriminate; try contradiction; auto.
Qed.

(** A word call that resolves to a sign with a translation. *)
Lemma word_reply_sign (st : Store) (call : WordCall) (rest : list WordCall)
  (reply : Exn Response) (t_id t_stamp : Z) (result : SignDetectionResult) :
  wordInFlight st = call :: rest ->
  wordResult reply call = Return result ->
  isSign result = true ->
  translation result <> ""%string ->
  let st' := step st (WordReplied reply t_id t_stamp) in
  currentPrediction st' = Some result /\
  (differsFromNewest toLowerCase (history st) result ->
     history st' = history st ++ [entryOf WORD result t_id t_stamp] /\
     spoken st' = spoken st ++ [translation result]) /\
  (~ differsFromNewest toLowerCase (history st) result ->
     history st' = history st /\ spoken st' = spoken st).
Proof.
  intros Hcall Hres Hsign Htext. apply truthy_nonempty in Htext.
  unfold App.step. rewrite Hcall, Hres.
  unfold exec, App.handleWordDetection_resume, dedupAppend,
    differsFromNewest.
  cbn. rewrite Hsign, Htext. cbn. rewrite last_index_newest.
  destruct (newest (history st)) as [item|]; cbn.
  - destruct (String.eqb_spec (toLowerCase (text item))
                (toLowerCase (translation result))); cbn;
      repeat split; intros; tauto || reflexivity.
  - repeat split; intros; tauto || reflexivity.
Qed.

(** A sentence call that resolves to a sign. *)
Lemma sentence_reply_sign (st : Store) (call : SentenceCall)
  (rest : list SentenceCall) (reply : Exn Response) (t_id t_stamp : Z)
  (result : SignDetectionResult) :
  sentenceInFlight st = call :: rest ->
  sentenceResult reply call = Return result ->
  isSign result = true ->
  let st' := step st (SentenceReplied reply t_id t_stamp) in
  currentPrediction st' = Some result /\
  history st' = history st ++ [entryOf SENTENCE result t_id t_stamp] /\
  spoken st' = spoken st ++ [translation result].
Proof.
  intros Hcall Hres Hsign.
  unfold App.step. rewrite Hcall, Hres.
  unfold exec, App.toggleRecording_resume. cbn. rewrite Hsign. cbn.
  repeat split.
Qed.

(** Every entry of the history after a step was there before it, or was
    made by the step from the result of the call it answers. *)
Lemma step_history (st : Store) (e : Event) (item : HistoryItem) :
  In item (history (step st e)) ->
  In item (history st) \/
  exists result,
    createdFrom JSON_parse item result e /\ isSign result = true /\
    (mode item = WORD -> translation result <> ""%string).
Proof.
  destruct e as [img | | m | lang | | reply t_id t_stamp
                | reply t_id t_stamp]; unfold App.step.
  - unfold exec, handleFrameCapture, handleWordDetection.
    branches; auto.
  - unfold exec, toggleRecording. branches; auto.
  - unfold exec, modeButton_onClick. branches; auto.
  - cbn. auto.
  - cbn. tauto.
  - destruct (wordInFlight st) as [|call rest] eqn:Hcall; [auto|].
    destruct (wordResult reply call) as [result|err] eqn:Hres;
      unfold exec, App.handleWordDetection_resume, dedupAppend; cbn; auto.
    destruct (isSign result) eqn:Hsign; cbn; auto.
    destruct (truthy (translation result)) eqn:Htext; cbn; auto.
    match goal with
    | |- context [if ?c then _ else _] => destruct c
    end; cbn; auto.
    intros Hin. apply in_app_or in Hin. destruct Hin as [Hin|Hin]; auto.
    destruct Hin as [<-|[]]. right. exists result. cbn.
    repeat split; eauto. intros _. apply truthy_nonempty, Htext.
  - destruct (sentenceInFlight st) as [|call rest] eqn:Hcall; [auto|].
    destruct (sentenceResult reply call) as [result|err] eqn:Hres;
      unfold exec, App.toggleRecording_resume; cbn; auto.
    destruct (isSign result) eqn:Hsign; cbn; auto.
    intros Hin. apply in_app_or in Hin. destruct Hin as [Hin|Hin]; auto.
    destruct Hin as [<-|[]]. right. exists result. cbn.
    repeat split; eauto. discriminate.
Qed.

(** C3, amended. Every entry of the history, on the word path and on the
    sentence path alike, was made from the result of an inference call
    whose [isSign] is true; an entry of the word path was moreover made
    from a result whose translation is not the empty string.  (A
    translation of white space only is not rejected.) *)
Theorem history_entries_come_from_signs (events : list Event)
  (item : HistoryItem) :
  In item (history (run initial events)) ->
  exists e result,
    In e events /\ createdFrom JSON_parse item result e /\
    isSign result = true /\
    (mode item = WORD -> translation result <> ""%string).
Proof.
  induction events as [|e events IH] using rev_ind.
  - intros [].
  - rewrite run_snoc. intros Hin.
    apply step_history in Hin. destruct Hin as [Hin | [result H]].
    + destruct (IH Hin) as (e' & result & He' & H).
      exists e', result. split; [apply in_or_app; auto | exact H].
    + exists e, result. split; [apply in_or_app; cbn; auto | exact H].
Qed.

(** C4. A word call that resolves to a sign with a translation always
    updates the displayed prediction.  It appends an entry and speaks the
    translation if the history is empty or the text of its newest entry
    differs from the translation when case is ignored, and only then:
    otherwise history and speech stay as they are.  Hence when the next
    word result (nothing appended in between) has the same translation up
    to case, it appends nothing and speaks nothing. *)
Theorem word_results_are_deduplicated (st : Store) (call : WordCall)
  (rest : list WordCall) (reply : Exn Response) (t_id t_stamp : Z)
  (result : SignDetectionResult) :
  wordInFlight st = call :: rest ->
  wordResult reply call = Return result ->
  isSign result = true ->
  translation result <> ""%string ->
  let st1 := step st (WordReplied reply t_id t_stamp) in
  currentPrediction st1 = Some result /\
  (differsFromNewest toLowerCase (history st) result ->
     history st1 = history st ++ [entryOf WORD result t_id t_stamp] /\
     spoken st1 = spoken st ++ [translation result]) /\
  (~ differsFromNewest toLowerCase (history st) result ->
     history st1 = history st /\ spoken st1 = spoken st) /\
  (forall st2 call2 rest2 reply2 t_id2 t_stamp2 result2,
     history st2 = history st1 ->
     wordInFlight st2 = call2 :: rest2 ->
     wordResult reply2 call2 = Return result2 ->
     isSign result2 = true ->
     translation result2 <> ""%string ->
     toLowerCase (translation result2) = toLowerCase (translation result) ->
     let st3 := step st2 (WordReplied reply2 t_id2 t_stamp2) in
     history st3 = history st2 /\ spoken st3 = spoken st2).
Proof.
  intros Hcall Hres Hsign Htext st1.
  destruct (word_reply_sign st call rest reply t_id t_stamp result
              Hcall Hres Hsign Htext) as (Hpred & Hnew & Hsame).
  fold st1 in Hpred, Hnew, Hsame.
  split; [exact Hpred|]. split; [exact Hnew|]. split; [exact Hsame|].
  intros st2 call2 rest2 reply2 t_id2 t_stamp2 result2
    Hhist Hcall2 Hres2 Hsign2 Htext2 Hlow st3.
  destruct (word_reply_sign st2 call2 rest2 reply2 t_id2 t_stamp2
              result2 Hcall2 Hres2 Hsign2 Htext2) as (_ & _ & Hsame2).
  apply Hsame2. rewrite Hhist.
  destruct (differsFromNewest_dec (history st) result) as [D|D].
  - destruct (Hnew D) as [-> _].
    unfold differsFromNewest. rewrite newest_snoc, Hlow. cbn. tauto.
  - destruct (Hsame D) as [-> _].
    unfold differsFromNewest in *. rewrite Hlow. exact D.
Qed.


(** ** Recording *)

(** The reply to a sentence call ends the recording cycle, whatever the
    reply. *)
Lemma sentence_reply_finishes (st : Store) (reply : Exn Response)
  (t_id t_stamp : Z) :
  sentenceInFlight st <> [] ->
  let st' := step st (SentenceReplied reply t_id t_stamp) in
  framesBufferRef st' = [] /\ frameCount st' = 0 /\ appState st' = IDLE.
Proof.
  intros Hcall. unfold App.step.
  destruct (sentenceInFlight st) as [|call rest]; [contradiction|].
  unfold exec, App.toggleRecording_resume. branches; repeat split.
Qed.

Lemma stop_empty (st : Store) :
  appState st = RECORDING ->
  framesBufferRef st = [] ->
  let st' := step st RecordClicked in
  framesBufferRef st' = [] /\ frameCount st' = 0 /\ appState st' = IDLE /\
  sentenceInFlight st' = sentenceInFlight st /\
  wordInFlight st' = wordInFlight st.
Proof.
  intros Hs Hb. unfold App.step, exec, toggleRecording. cbn.
  rewrite Hs. cbn. rewrite Hb. cbn. repeat split.
Qed.

Lemma stop_nonempty (st : Store) :
  appState st = RECORDING ->
  framesBufferRef st <> [] ->
  let st' := step st RecordClicked in
  appState st' = PROCESSING /\
  framesBufferRef st' = framesBufferRef st /\
  sentenceInFlight st'
  = sentenceInFlight st
    ++ [mkSentenceCall (framesBufferRef st) (signLanguage st)].
Proof.
  intros Hs Hb. unfold App.step, exec, toggleRecording. cbn.
  rewrite Hs. cbn.
  destruct (framesBufferRef st) as [|frame frames]; [contradiction|].
  cbn. repeat split.
Qed.

(** C5. A recording that is stopped ends with an empty frame buffer, a
    frame counter of 0 and [appState] IDLE: at once when the buffer is empty
    (the inference is skipped); otherwise the stop leaves PROCESSING with
    the call in flight, and the reply, whatever it is (a sign, no sign, a
    failure), clears buffer and counter together and sets IDLE.  The same
    holds for the reply to any sentence call in flight, in any store. *)
Theorem stop_recording_clears_buffer (st : Store) :
  appState st = RECORDING ->
  let st1 := step st RecordClicked in
  (framesBufferRef st = [] ->
     framesBufferRef st1 = [] /\ frameCount st1 = 0 /\
     appState st1 = IDLE) /\
  (framesBufferRef st <> [] ->
     appState st1 = PROCESSING /\
     forall reply t_id t_stamp,
       let st2 := step st1 (SentenceReplied reply t_id t_stamp) in
       framesBufferRef st2 = [] /\ frameCount st2 = 0 /\
       appState st2 = IDLE) /\
  (forall st' reply t_id t_stamp,
     sentenceInFlight st' <> [] ->
     let st2 := step st' (SentenceReplied reply t_id t_stamp) in
     framesBufferRef st2 = [] /\ frameCount st2 = 0 /\ appState st2 = IDLE).
Proof.
  intros Hs st1. split; [| split].
  - intros Hb. destruct (stop_empty st Hs Hb) as (B & C & S & _).
    repeat split; assumption.
  - intros Hb. destruct (stop_nonempty st Hs Hb) as (S & _ & F).
    split; [exact S|]. intros reply t_id t_stamp.
    apply sentence_reply_finishes. unfold st1. rewrite F.
    intros E. apply app_eq_nil in E. destruct E as [_ E]. discriminate.
  - intros st' reply t_id t_stamp. apply sentence_reply_finishes.
Qed.

(** C7. Stopping a recording whose frame buffer is empty issues no
    inference call (the calls in flight are what they were), and the one
    synchronous run it takes leaves [appState] IDLE: the only value
    [appState] takes after RECORDING is IDLE. *)
Theorem stop_with_empty_buffer_goes_idle (st : Store) :
  appState st = RECORDING ->
  framesBufferRef st = [] ->
  let st' := step st RecordClicked in
  appState st' = IDLE /\
  visited toLowerCase JSON_parse st [RecordClicked] = [IDLE] /\
  sentenceInFlight st' = sentenceInFlight st /\
  wordInFlight st' = wordInFlight st.
Proof.
  intros Hs Hb st'. subst st'.
  destruct (stop_empty st Hs Hb) as (_ & _ & S & FS & FW).
  cbn [visited]. rewrite S. repeat split; assumption.
Qed.

(** ** Failures *)

(** C6, amended. When an inference call fails (the request, the missing
    text or the parse), the reply appends no entry and speaks nothing, and
    [appState] is never ERROR.  After a word call [appState] is SCANNING and
    after a sentence call it is IDLE, whatever it was before the call.  On
    the word path the guard is cleared and the prediction on display, if
    there is one, keeps its sign, translation and confidence and gets the
    description "No clear sign detected"; with none on display nothing is
    shown.  On the sentence path the display becomes the result that is no
    sign, has the translation "Could not understand sentence", confidence 0
    and no description. *)
Theorem inference_failure_is_absorbed (st : Store) (reply : Exn Response)
  (t_id t_stamp : Z) :
  InferenceFailure JSON_parse reply ->
  (wordInFlight st <> [] ->
     let st' := step st (WordReplied reply t_id t_stamp) in
     history st' = history st /\ spoken st' = spoken st /\
     appState st' = SCANNING /\ appState st' <> ERROR /\
     processingRef st' = false /\
     (currentPrediction st = None -> currentPrediction st' = None) /\
     (forall shown,
        currentPrediction st = Some shown ->
        currentPrediction st'
        = Some {| isSign := isSign shown;
                  translation := translation shown;
                  confidence := confidence shown;
                  description := Some "No clear sign detected" |})) /\
  (sentenceInFlight st <> [] ->
     let st' := step st (SentenceReplied reply t_id t_stamp) in
     history st' = history st /\ spoken st' = spoken st /\
     appState st' = IDLE /\ appState st' <> ERROR /\
     currentPrediction st'
     = Some {| isSign := false;
               translation := "Could not understand sentence";
               confidence := 0%float;
               description := None |}).
Proof.
  intros F. split; intros Hcall; unfold App.step.
  - destruct (wordInFlight st) as [|call rest]; [contradiction|].
    rewrite (wordResult_failure reply call F).
    unfold exec, App.handleWordDetection_resume. cbn.
    destruct (currentPrediction st) as [shown|]; repeat split;
      try discriminate.
    intros shown' E. injection E as <-. reflexivity.
  - destruct (sentenceInFlight st) as [|call rest]; [contradiction|].
    rewrite (sentenceResult_failure reply call F).
    unfold exec, App.toggleRecording_resume. cbn.
    repeat split; discriminate.
Qed.

(** ** Sentences *)

(** C8. The reply to a sentence call that resolves to a sign appends an
    entry with the translation, speaks it and displays it, whatever the
    history holds: no comparison with the newest entry is made, so the
    entry is appended also when its text equals the newest entry's up to
    case. *)
Theorem sentence_results_are_not_deduplicated (st : Store)
  (call : SentenceCall) (rest : list SentenceCall) (reply : Exn Response)
  (t_id t_stamp : Z) (result : SignDetectionResult) :
  sentenceInFlight st = call :: rest ->
  sentenceResult reply call = Return result ->
  isSign result = true ->
  let st' := step st (SentenceReplied reply t_id t_stamp) in
  history st' = history st ++ [entryOf SENTENCE result t_id t_stamp] /\
  spoken st' = spoken st ++ [translation result] /\
  currentPrediction st' = Some result /\
  (~ differsFromNewest toLowerCase (history st) result ->
   length (history st') = S (length (history st))).
Proof.
  intros Hcall Hres Hsign st'.
  destruct (sentence_reply_sign st call rest reply t_id t_stamp result
              Hcall Hres Hsign) as (P & H & S).
  fold st' in P, H, S. repeat split; try assumption.
  intros _. rewrite H, length_app. cbn. lia.
Qed.

(** ** The mode buttons *)

(** The click handler of a mode button is ignored while RECORDING;
    otherwise it sets the detection mode.  In either case it writes nothing
    else. *)
Lemma mode_switch_changes_only_the_mode (st : Store) (m : DetectionMode) :
  let st' := step st (ModeClicked m) in
  (appState st = RECORDING -> st' = st) /\
  (appState st <> RECORDING -> detectionMode st' = m) /\
  framesBufferRef st' = framesBufferRef st /\
  processingRef st' = processingRef st /\
  frameCount st' = frameCount st /\
  appState st' = appState st /\
  history st' = history st /\
  wordInFlight st' = wordInFlight st /\
  sentenceInFlight st' = sentenceInFlight st.
Proof.
  unfold App.step, exec, modeButton_onClick. cbn.
  destruct (appState st) eqn:E; cbn; repeat split; intros;
    try reflexivity; try congruence.
Qed.

End Orchestrator.

(** * Concrete runs *)

Section Runs.

Import GeminiService App.

Local Abbreviation step := (App.step Host.toLowerCase Host.parse).
Local Abbreviation run := (App.run Host.toLowerCase Host.parse).

(** Scenario A of the spec: the word results HELLO, HELLO, WORLD. *)
Example scenario_A :
  let st := run initial
              [FrameCaptured "f1"; WordReplied (Host.answers "+HELLO") 1 2;
               FrameCaptured "f2"; WordReplied (Host.answers "+HELLO") 3 4;
               FrameCaptured "f3"; WordReplied (Host.answers "+WORLD") 5 6]
  in
  map text (history st) = ["HELLO"; "WORLD"]%string /\
  spoken st = ["HELLO"; "WORLD"]%string /\
  appState st = SCANNING.
Proof. vm_compute. repeat split. Qed.

(** Scenario B: five frames recorded, one call with the five frames, and no
    entry when the result is not a sign. *)
Example scenario_B :
  let recorded := run initial
                    (ModeClicked SENTENCE :: RecordClicked
                     :: map FrameCaptured (Host.frames 5) ++ [RecordClicked])
  in
  sentenceInFlight recorded = [mkSentenceCall (Host.frames 5) ASL] /\
  history (step recorded (SentenceReplied (Host.answers "-") 1 2)) = [] /\
  currentPrediction (step recorded (SentenceReplied (Host.answers "-") 1 2))
  = Some notUnderstood.
Proof. vm_compute. repeat split. Qed.

(** Scenario C: a recording stopped with no frame goes from RECORDING to
    IDLE with no call; one stopped with a frame goes through PROCESSING. *)
Example scenario_C :
  visited Host.toLowerCase Host.parse initial
    [ModeClicked SENTENCE; RecordClicked; RecordClicked]
  = [IDLE; RECORDING; IDLE]
  /\ sentenceInFlight
       (run initial [ModeClicked SENTENCE; RecordClicked; RecordClicked])
     = []
  /\ visited Host.toLowerCase Host.parse initial
       [ModeClicked SENTENCE; RecordClicked; FrameCaptured "f";
        RecordClicked; SentenceReplied (Host.answers "+Hi") 1 2]
     = [IDLE; RECORDING; RECORDING; PROCESSING; IDLE].
Proof. vm_compute. repeat split. Qed.

(** Scenario D: the call fails in word mode. *)
Example scenario_D :
  let st := run initial [FrameCaptured "f"; WordReplied (Throw "offline") 1 2]
  in
  appState st = SCANNING /\ history st = [] /\ spoken st = [] /\
  processingRef st = false.
Proof. vm_compute. repeat split. Qed.

Lemma at_most_one_word_call_in_flight_witness :
  step (run initial [FrameCaptured "a"]) (FrameCaptured "b")
  = run initial [FrameCaptured "a"]
  /\ length (wordInFlight
               (run initial [FrameCaptured "a"; FrameCaptured "b";
                             FrameCaptured "c"])) <= 1.
Proof.
  destruct (at_most_one_word_call_in_flight Host.toLowerCase Host.parse)
    as (_ & Hdrop & Hone).
  split.
  - apply Hdrop; reflexivity.
  - apply Hone.
Defined.

Lemma history_entries_come_from_signs_witness :
  exists e result,
    In e [FrameCaptured "f"; WordReplied (Host.answers "+HELLO") 1 2] /\
    createdFrom Host.parse
      {| id := "1"; text := "HELLO"; timestamp := 2; mode := WORD |}
      result e /\
    isSign result = true /\
    (mode {| id := "1"; text := "HELLO"; timestamp := 2; mode := WORD |}
     = WORD -> translation result <> ""%string).
Proof.
  apply (history_entries_come_from_signs Host.toLowerCase Host.parse).
  vm_compute. left. reflexivity.
Defined.

(** A word result whose translation is one space is a sign with a truthy
    translation: its entry is appended. *)
Lemma blank_translation_enters_history :
  ~ (forall events item,
       In item (history (run initial events)) ->
       exists e result,
         In e events /\ createdFrom Host.parse item result e /\
         isSign result = true /\ blank (translation result) = false).
Proof.
  intros claim.
  destruct (claim [FrameCaptured "frame";
                   WordReplied (Host.answers "+ ") 1 2]
              {| id := "1"; text := " "; timestamp := 2; mode := WORD |})
    as (e & result & He & Hfrom & _ & Hblank).
  - vm_compute. left. reflexivity.
  - destruct He as [<- | [<- | []]]; cbn in Hfrom; [contradiction|].
    destruct Hfrom as [[call Hres] _].
    vm_compute in Hres. injection Hres as <-.
    vm_compute in Hblank. discriminate.
Qed.

Lemma word_results_are_deduplicated_witness :
  history (step (run initial [FrameCaptured "f1"])
             (WordReplied (Host.answers "+HELLO") 1 2))
  = history (run initial [FrameCaptured "f1"])
    ++ [ {| id := "1"; text := "HELLO"; timestamp := 2; mode := WORD |} ]
  /\ history (step (run initial [FrameCaptured "f1";
                                 WordReplied (Host.answers "+HELLO") 1 2;
                                 FrameCaptured "f2"])
                (WordReplied (Host.answers "+hello") 3 4))
     = history (run initial [FrameCaptured "f1";
                             WordReplied (Host.answers "+HELLO") 1 2;
                             FrameCaptured "f2"]).
Proof.
  destruct (word_results_are_deduplicated Host.toLowerCase Host.parse
              (run initial [FrameCaptured "f1"])
              (mkWordCall "f1" ASL) [] (Host.answers "+HELLO") 1%Z 2%Z
              {| isSign := true; translation := "HELLO";
                 confidence := 1%float; description := None |})
    as (_ & Hnew & _ & Hnext);
    [vm_compute; reflexivity | vm_compute; reflexivity
     | reflexivity | discriminate |].
  split.
  - apply Hnew. exact I.
  - refine (proj1 (Hnext
             (run initial [FrameCaptured "f1";
                           WordReplied (Host.answers "+HELLO") 1 2;
                           FrameCaptured "f2"])
             (mkWordCall "f2" ASL) [] (Host.answers "+hello") 3%Z 4%Z
             {| isSign := true; translation := "hello";
                confidence := 1%float; description := None |}
             _ _ _ _ _ _)).
    + vm_compute; reflexivity.
    + vm_compute; reflexivity.
    + vm_compute; reflexivity.
    + reflexivity.
    + discriminate.
    + vm_compute; reflexivity.
Defined.

Lemma stop_recording_clears_buffer_witness :
  framesBufferRef
    (step (step (run initial [ModeClicked SENTENCE; RecordClicked;
                              FrameCaptured "f1"; FrameCaptured "f2"])
             RecordClicked)
       (SentenceReplied (Throw "offline") 1 2)) = []
  /\ frameCount
       (step (step (run initial [ModeClicked SENTENCE; RecordClicked;
                                 FrameCaptured "f1"; FrameCaptured "f2"])
                RecordClicked)
          (SentenceReplied (Throw "offline") 1 2)) = 0.
Proof.
  destruct (stop_recording_clears_buffer Host.toLowerCase Host.parse
              (run initial [ModeClicked SENTENCE; RecordClicked;
                            FrameCaptured "f1"; FrameCaptured "f2"]))
    as (_ & Hfull & _); [vm_compute; reflexivity|].
  destruct Hfull as [_ Hreply]; [vm_compute; discriminate|].
  destruct (Hreply (Throw "offline") 1%Z 2%Z) as (B & C & _).
  split; [exact B | exact C].
Defined.

Lemma inference_failure_is_absorbed_witness :
  history (step (run initial [FrameCaptured "f1";
                              WordReplied (Host.answers "+HELLO") 1 2;
                              FrameCaptured "f2"])
             (WordReplied (Throw "offline") 3 4))
  = history (run initial [FrameCaptured "f1";
                          WordReplied (Host.answers "+HELLO") 1 2;
                          FrameCaptured "f2"])
  /\ appState (step (run initial [FrameCaptured "f1";
                                  WordReplied (Host.answers "+HELLO") 1 2;
                                  FrameCaptured "f2"])
                  (WordReplied (Throw "offline") 3 4)) = SCANNING
  /\ currentPrediction
       (step (run initial [FrameCaptured "f1";
                           WordReplied (Host.answers "+HELLO") 1 2;
                           FrameCaptured "f2"])
          (WordReplied (Throw "offline") 3 4))
     = Some {| isSign := true; translation := "HELLO";
               confidence := 1%float;
               description := Some "No clear sign detected" |}.
Proof.
  destruct (inference_failure_is_absorbed Host.toLowerCase Host.parse
              (run initial [FrameCaptured "f1";
                            WordReplied (Host.answers "+HELLO") 1 2;
                            FrameCaptured "f2"])
              (Throw "offline") 3%Z 4%Z
              (RequestError Host.parse "offline"))
    as [Hword _].
  destruct Hword as (H & _ & A & _ & _ & _ & P); [vm_compute; discriminate|].
  split; [exact H | split; [exact A |]].
  refine (P {| isSign := true; translation := "HELLO";
               confidence := 1%float; description := None |} _).
  vm_compute. reflexivity.
Defined.

Lemma stop_with_empty_buffer_goes_idle_witness :
  appState (step (run initial [ModeClicked SENTENCE; RecordClicked])
              RecordClicked) = IDLE
  /\ sentenceInFlight
       (step (run initial [ModeClicked SENTENCE; RecordClicked])
          RecordClicked)
     = sentenceInFlight (run initial [ModeClicked SENTENCE; RecordClicked]).
Proof.
  destruct (stop_with_empty_buffer_goes_idle Host.toLowerCase Host.parse
              (run initial [ModeClicked SENTENCE; RecordClicked]))
    as (A & _ & S & _); [vm_compute; reflexivity | vm_compute; reflexivity |].
  split; [exact A | exact S].
Defined.

(** Two recordings translated to the same sentence up to case: two
    entries. *)
Example same_sentence_twice :
  map text
    (history
       (run initial
          [ModeClicked SENTENCE;
           RecordClicked; FrameCaptured "f"; RecordClicked;
           SentenceReplied (Host.answers "+Thank you") 1 2;
           RecordClicked; FrameCaptured "g"; RecordClicked;
           SentenceReplied (Host.answers "+THANK YOU") 3 4]))
  = ["Thank you"; "THANK YOU"]%string.
Proof. vm_compute. reflexivity. Qed.

Lemma sentence_results_are_not_deduplicated_witness :
  history
    (step (run initial
             [ModeClicked SENTENCE;
              RecordClicked; FrameCaptured "f"; RecordClicked;
              SentenceReplied (Host.answers "+Thank you") 1 2;
              RecordClicked; FrameCaptured "g"; RecordClicked])
       (SentenceReplied (Host.answers "+THANK YOU") 3 4))
  = history
      (run initial
         [ModeClicked SENTENCE;
          RecordClicked; FrameCaptured "f"; RecordClicked;
          SentenceReplied (Host.answers "+Thank you") 1 2;
          RecordClicked; FrameCaptured "g"; RecordClicked])
    ++ [ {| id := "3"; text := "THANK YOU"; timestamp := 4;
            mode := SENTENCE |} ].
Proof.
  refine (proj1 (sentence_results_are_not_deduplicated
              Host.toLowerCase Host.parse
              (run initial
                 [ModeClicked SENTENCE;
                  RecordClicked; FrameCaptured "f"; RecordClicked;
                  SentenceReplied (Host.answers "+Thank you") 1 2;
                  RecordClicked; FrameCaptured "g"; RecordClicked])
              (mkSentenceCall ["g"%string] ASL) []
              (Host.answers "+THANK YOU") 3%Z 4%Z
              {| isSign := true; translation := "THANK YOU";
                 confidence := 1%float; description := None |}
              _ _ _)).
  - vm_compute; reflexivity.
  - vm_compute; reflexivity.
  - reflexivity.
Defined.

End Runs.

(** * Further properties of the inference wrappers *)

Section Strings.

Lemma list_ascii_of_string_app (a b : string) :
  list_ascii_of_string (a ++ b)
  = list_ascii_of_string a ++ list_ascii_of_string b.
Proof.
  induction a as [|c a IH]; cbn; [reflexivity | rewrite IH; reflexivity].
Qed.

Lemma commaFree_cons (c : ascii) (s : string) :
  commaFree (String c s) = negb (Ascii.eqb c ",") && commaFree s.
Proof. reflexivity. Qed.

(** A string with no separator is one piece. *)
Lemma split_commaFree (s : string) :
  commaFree s = true -> split "," s = [s].
Proof.
  induction s as [|c s IH]; [reflexivity|].
  rewrite commaFree_cons. intros H. apply andb_prop in H. destruct H as [Hc Hs].
  cbn. apply negb_true_iff in Hc. rewrite Hc, (IH Hs). reflexivity.
Qed.

(** The first piece ends at the first separator. *)
Lemma split_first (header rest : string) :
  commaFree header = true ->
  split "," (header ++ String "," rest) = header :: split "," rest.
Proof.
  induction header as [|c h IH]; [reflexivity|].
  rewrite commaFree_cons. intros H. apply andb_prop in H. destruct H as [Hc Hs].
  cbn. apply negb_true_iff in Hc. rewrite Hc, (IH Hs). reflexivity.
Qed.

Lemma split_pieces_commaFree (s : string) :
  Forall (fun piece => commaFree piece = true) (split "," s).
Proof.
  induction s as [|c s IH]; cbn.
  - repeat constructor.
  - destruct (Ascii.eqb c ",") eqn:E.
    + constructor; [reflexivity | exact IH].
    + destruct (split "," s) as [|piece pieces].
      * repeat constructor. rewrite commaFree_cons, E. reflexivity.
      * inversion IH; subst. constructor; [| assumption].
        rewrite commaFree_cons, E. cbn. assumption.
Qed.

End Strings.

Section CleanBase64.

Import GeminiService.

Lemma cleanBase64_commaFree (data : string) :
  commaFree data = true -> cleanBase64 data = data.
Proof.
  intros H. unfold cleanBase64. rewrite (split_commaFree data H). reflexivity.
Qed.

(** X1. From a data URL, [cleanBase64] keeps the payload alone: what stands
    between the first comma and the second one (or the end), when it is
    not empty. *)
Theorem cleanBase64_payload (header payload : string) :
  commaFree header = true ->
  commaFree payload = true ->
  payload <> ""%string ->
  cleanBase64 (header ++ String "," payload) = payload /\
  (forall more, cleanBase64 (header ++ String "," (payload ++ String "," more))
                = payload).
Proof.
  intros Hh Hp Hne. apply truthy_nonempty in Hne. split.
  - unfold cleanBase64. rewrite (split_first header payload Hh).
    rewrite (split_commaFree payload Hp). cbn. rewrite Hne. reflexivity.
  - intros more. unfold cleanBase64.
    rewrite (split_first header _ Hh), (split_first payload more Hp).
    cbn. rewrite Hne. reflexivity.
Qed.

(** X2. [cleanBase64] returns its argument whole when it has no comma, and
    also when nothing stands between its first comma and the next one (or
    the end): the header is then not removed. *)
Theorem cleanBase64_falls_back (data : string) :
  (commaFree data = true -> cleanBase64 data = data) /\
  (forall header,
     commaFree header = true ->
     (data = header ++ "," -> cleanBase64 data = data) /\
     (forall more, data = header ++ String "," (String "," more) ->
                   cleanBase64 data = data))%string.
Proof.
  split; [apply cleanBase64_commaFree|].
  intros header Hh. split.
  - intros ->. unfold cleanBase64. rewrite (split_first header "" Hh).
    reflexivity.
  - intros more ->. unfold cleanBase64.
    rewrite (split_first header _ Hh). reflexivity.
Qed.

(** What [cleanBase64] returns is its argument or has no comma. *)
Lemma cleanBase64_result (data : string) :
  cleanBase64 data = data \/ commaFree (cleanBase64 data) = true.
Proof.
  pose proof (split_pieces_commaFree data) as F.
  unfold cleanBase64.
  destruct (nth_error (split "," data) 1) as [piece|] eqn:E; [| now left].
  destruct (truthy piece); [| now left].
  right. apply nth_error_In in E. rewrite Forall_forall in F. apply F, E.
Qed.

Lemma cleanBase64_twice (data : string) :
  cleanBase64 (cleanBase64 data) = cleanBase64 data.
Proof.
  destruct (cleanBase64_result data) as [H|H].
  - rewrite H. exact H.
  - apply cleanBase64_commaFree, H.
Qed.

(** X3. Cleaning twice is cleaning once, and only the empty string is
    cleaned to the empty string. *)
Theorem cleanBase64_idempotent (data : string) :
  cleanBase64 (cleanBase64 data) = cleanBase64 data /\
  (cleanBase64 data = ""%string -> data = ""%string).
Proof.
  split; [apply cleanBase64_twice|].
  unfold cleanBase64.
  destruct (nth_error (split "," data) 1) as [piece|]; [| auto].
  destruct (truthy piece) eqn:T; [| auto].
  intros ->. discriminate.
Qed.

End CleanBase64.

Section CleanJson.

Import GeminiService.

Lemma drop_spaces_blank (spaces rest : list ascii) :
  forallb is_space spaces = true ->
  drop_spaces (spaces ++ rest) = drop_spaces rest.
Proof.
  induction spaces as [|c spaces IH]; cbn; [reflexivity|].
  intros H. apply andb_prop in H. destruct H as [Hc Hs].
  rewrite Hc. apply IH, Hs.
Qed.

Lemma forallb_rev' {A : Type} (f : A -> bool) (l : list A) :
  forallb f (rev l) = forallb f l.
Proof.
  induction l as [|x l IH]; [reflexivity|].
  cbn. rewrite forallb_app, IH. cbn. rewrite andb_true_r. apply andb_comm.
Qed.

Lemma drop_spaces_head (c : ascii) (rest : list ascii) :
  is_space c = false -> drop_spaces (c :: rest) = c :: rest.
Proof. intros H. cbn. rewrite H. reflexivity. Qed.

Lemma strip_opening_fence_fence (rest : string) :
  strip_opening_fence ("```json" ++ rest)
  = string_of_list_ascii (drop_spaces (list_ascii_of_string rest)).
Proof.
  unfold strip_opening_fence.
  assert (P : prefix "```json" ("```json" ++ rest) = true)
    by (cbn; destruct rest; reflexivity).
  cbv zeta. rewrite P. reflexivity.
Qed.

Lemma strip_closing_fence_fence (before : list ascii) :
  strip_closing_fence
    (string_of_list_ascii (before ++ list_ascii_of_string "```"))
  = string_of_list_ascii (rev (drop_spaces (rev before))).
Proof.
  unfold strip_closing_fence.
  rewrite list_ascii_of_string_of_list_ascii, rev_app_distr. reflexivity.
Qed.

Lemma cleanJson_fence_body (space1 body space2 : string) :
  blank space1 = true ->
  blank space2 = true ->
  trimmed body = true ->
  cleanJson (fenced space1 body space2) = body.
Proof.
  unfold blank, trimmed. intros H1 H2 Hb.
  apply andb_prop in Hb. destruct Hb as [Hhead Hlast].
  unfold cleanJson, fenced.
  replace (truthy ("```json" ++ space1 ++ body ++ space2 ++ "```"))
    with true by reflexivity.
  cbn [negb]. rewrite strip_opening_fence_fence.
  rewrite !list_ascii_of_string_app, (drop_spaces_blank _ _ H1).
  rewrite <- (string_of_list_ascii_of_string body) at 2.
  destruct (list_ascii_of_string body) as [|c cs] eqn:Eb.
  - cbn [app]. rewrite (drop_spaces_blank _ _ H2). reflexivity.
  - apply negb_true_iff in Hhead.
    change ((c :: cs) ++ list_ascii_of_string space2
                 ++ list_ascii_of_string "```")
      with (c :: (cs ++ list_ascii_of_string space2
                 ++ list_ascii_of_string "```")).
    rewrite (drop_spaces_head c _ Hhead).
    change (c :: (cs ++ list_ascii_of_string space2
                 ++ list_ascii_of_string "```"))
      with ((c :: cs) ++ list_ascii_of_string space2
                 ++ list_ascii_of_string "```").
    rewrite app_assoc, strip_closing_fence_fence, rev_app_distr.
    rewrite drop_spaces_blank by (rewrite forallb_rev'; exact H2).
    destruct (rev (c :: cs)) as [|d ds] eqn:Er.
    + apply (f_equal (@rev ascii)) in Er. rewrite rev_involutive in Er.
      discriminate.
    + apply negb_true_iff in Hlast. rewrite (drop_spaces_head d ds Hlast).
      rewrite <- Er, rev_involutive. reflexivity.
Qed.

Lemma cleanJson_object (inside : string) :
  cleanJson (String "{" (inside ++ "}")) = String "{" (inside ++ "}").
Proof.
  unfold cleanJson.
  replace (truthy (String "{" (inside ++ "}"))) with true by reflexivity.
  cbn [negb].
  replace (strip_opening_fence (String "{" (inside ++ "}")))
    with (String "{" (inside ++ "}")) by reflexivity.
  unfold strip_closing_fence. cbn [list_ascii_of_string rev].
  rewrite list_ascii_of_string_app, rev_app_distr. reflexivity.
Qed.

(** X4. A reply wrapped in a Markdown fence is unwrapped: the opening
    fence, the closing fence and the white space between them and the body
    are removed, and the body, which neither starts nor ends with white
    space, is returned as it is. *)
Theorem cleanJson_unwraps_fence (space1 body space2 : string) :
  blank space1 = true ->
  blank space2 = true ->
  trimmed body = true ->
  cleanJson (fenced space1 body space2) = body.
Proof. apply cleanJson_fence_body. Qed.

(** X5. A reply that is a bare JSON object (from its opening brace to its
    closing brace) is not changed. *)
Theorem cleanJson_keeps_bare_object (inside : string) :
  cleanJson (String "{" (inside ++ "}")) = String "{" (inside ++ "}").
Proof. apply cleanJson_object. Qed.

End CleanJson.

Section Downsampling.

Import GeminiService.

Lemma Math_ceil_div_bounds (n d : nat) :
  0 < d ->
  n <= d * Math_ceil_div n d /\ (0 < n -> d * (Math_ceil_div n d - 1) < n).
Proof.
  intros Hd. unfold Math_ceil_div.
  pose proof (Nat.div_mod_eq (n + (d - 1)) d) as E.
  pose proof (Nat.mod_upper_bound (n + (d - 1)) d) as B.
  split; [nia|]. intros Hn.
  destruct ((n + (d - 1)) / d) as [|q]; [nia|]. cbn. nia.
Qed.

(** The number of indices below [n] that are multiples of [s]. *)
Lemma filter_index_stride_length {A : Type} (s : nat) (xs : list A) :
  0 < s ->
  length (filter_index (fun j => j mod s =? 0) 0 xs)
  = Math_ceil_div (length xs) s.
Proof.
  intros Hs.
  set (kept := filter_index (fun j => j mod s =? 0) 0 xs).
  assert (Hk : forall k, nth_error kept k = nth_error xs (k * s)).
  { intros k. unfold kept.
    rewrite (filter_index_stride s xs Hs 0 0 k);
      [reflexivity | lia | exists 0; lia]. }
  assert (Hup : length xs <= length kept * s).
  { apply nth_error_None. rewrite <- Hk. apply nth_error_None. lia. }
  assert (Hlow : 0 < length kept -> (length kept - 1) * s < length xs).
  { intros Hpos. apply nth_error_Some. rewrite <- Hk.
    apply nth_error_Some. lia. }
  destruct (Math_ceil_div_bounds (length xs) s Hs) as [Cup Clow].
  destruct (Nat.eq_dec (length xs) 0) as [Z|NZ].
  - rewrite Z in *.
    assert (length kept = 0).
    { destruct (length kept); [reflexivity|]. specialize (Hlow ltac:(lia)).
      lia. }
    unfold Math_ceil_div.
    rewrite Nat.div_small by lia. assumption.
  - specialize (Clow ltac:(lia)).
    assert (0 < length kept) by nia.
    specialize (Hlow ltac:(lia)).
    assert (0 < Math_ceil_div (length xs) s) by nia.
    nia.
Qed.

Lemma framesToProcess_length (base64Images : list string) :
  length (framesToProcess base64Images) <= 15.
Proof.
  unfold framesToProcess.
  destruct (Nat.ltb_spec 15 (length base64Images)) as [H|H]; [| exact H].
  destruct (Math_ceil_div_bounds (length base64Images) 15 ltac:(lia))
    as [Cup Clow].
  rewrite filter_index_stride_length by lia.
  destruct (Math_ceil_div_bounds (length base64Images)
              (Math_ceil_div (length base64Images) 15) ltac:(lia))
    as [Dup Dlow].
  specialize (Dlow ltac:(lia)). nia.
Qed.

(** X7. Of more than 15 frames, [detectSignSentence] sends
    [ceil (n / ceil (n / 15))]: never more than 15 and never fewer than
    8. *)
Theorem framesToProcess_sends_8_to_15 (base64Images : list string) :
  15 < length base64Images ->
  length (framesToProcess base64Images)
  = Math_ceil_div (length base64Images)
      (Math_ceil_div (length base64Images) 15) /\
  8 <= length (framesToProcess base64Images) <= 15.
Proof.
  intros H.
  destruct (Math_ceil_div_bounds (length base64Images) 15 ltac:(lia))
    as [Cup Clow].
  specialize (Clow ltac:(lia)).
  assert (Hs : 2 <= Math_ceil_div (length base64Images) 15) by lia.
  assert (E : length (framesToProcess base64Images)
              = Math_ceil_div (length base64Images)
                  (Math_ceil_div (length base64Images) 15)).
  { unfold framesToProcess.
    destruct (Nat.ltb_spec 15 (length base64Images)); [| lia].
    apply filter_index_stride_length. lia. }
  split; [exact E|]. split; [| apply framesToProcess_length].
  rewrite E.
  destruct (Math_ceil_div_bounds (length base64Images)
              (Math_ceil_div (length base64Images) 15) ltac:(lia))
    as [Dup _].
  nia.
Qed.

(** X8. [detectSignSentence] never hands the service more than 15 images,
    and every image it hands over has been through [cleanBase64]: two
    services that agree on the requests of at most 15 cleaned images in the
    language asked for give the same result. *)
Theorem detectSignSentence_request_is_bounded
  (JSON_parse : string -> Exn SignDetectionResult)
  (service1 service2 : Request -> Exn Response)
  (base64Images : list string) (lang : SignLanguage) :
  (forall request,
     length (images request) <= 15 ->
     Forall (fun image => cleanBase64 image = image) (images request) ->
     language request = lang ->
     service1 request = service2 request) ->
  detectSignSentence JSON_parse service1 base64Images lang
  = detectSignSentence JSON_parse service2 base64Images lang.
Proof.
  intros Hagree. unfold detectSignSentence. rewrite Hagree; [reflexivity | | |].
  - cbn. rewrite length_map. apply framesToProcess_length.
  - cbn. apply Forall_forall. intros image Hin.
    apply in_map_iff in Hin. destruct Hin as (frame & <- & _).
    apply cleanBase64_twice.
  - reflexivity.
Qed.

End Downsampling.

Section FencedReplies.

Import GeminiService.

Variable JSON_parse : string -> Exn SignDetectionResult.

Lemma trimmed_object (inside : string) :
  trimmed (String "{" (inside ++ "}")) = true.
Proof.
  unfold trimmed. cbn [list_ascii_of_string rev].
  rewrite list_ascii_of_string_app, rev_app_distr. reflexivity.
Qed.

Lemma readResponse_text (t : string) :
  t <> ""%string ->
  readResponse JSON_parse {| response_text := Some t |}
  = JSON_parse (cleanJson t).
Proof.
  intros H. apply truthy_nonempty in H. unfold readResponse. cbn.
  rewrite H. reflexivity.
Qed.

(** X6. A reply that is a JSON object wrapped in a Markdown fence is read
    by both wrappers exactly like the bare object: the result is what
    [JSON.parse] makes of the object. *)
Theorem fenced_reply_is_read_like_bare (space1 inside space2 : string) :
  blank space1 = true ->
  blank space2 = true ->
  let body := String "{" (inside ++ "}") in
  let bare := fun _ : Request => Return {| response_text := Some body |} in
  let wrapped :=
    fun _ : Request =>
      Return {| response_text := Some (fenced space1 body space2) |} in
  (forall base64Image lang,
     detectSignLanguage JSON_parse wrapped base64Image lang
     = detectSignLanguage JSON_parse bare base64Image lang) /\
  (forall base64Images lang,
     detectSignSentence JSON_parse wrapped base64Images lang
     = detectSignSentence JSON_parse bare base64Images lang) /\
  (forall result,
     JSON_parse body = Return result ->
     (forall base64Image lang,
        detectSignLanguage JSON_parse wrapped base64Image lang
        = Return result) /\
     (forall base64Images lang,
        detectSignSentence JSON_parse wrapped base64Images lang
        = Return result)).
Proof.
  intros H1 H2 body bare wrapped.
  assert (Hw : readResponse JSON_parse
                 {| response_text := Some (fenced space1 body space2) |}
               = JSON_parse body).
  { rewrite readResponse_text by discriminate.
    unfold body.
    rewrite (cleanJson_fence_body _ _ _ H1 H2 (trimmed_object inside)).
    reflexivity. }
  assert (Hb : readResponse JSON_parse {| response_text := Some body |}
               = JSON_parse body).
  { rewrite readResponse_text by discriminate.
    unfold body. rewrite cleanJson_object. reflexivity. }
  unfold detectSignLanguage, detectSignSentence, wrapped, bare.
  cbn [bind Exn_Monad]. rewrite Hw, Hb.
  split; [| split].
  - intros. reflexivity.
  - intros. reflexivity.
  - intros result Hr. rewrite Hr. split; intros; reflexivity.
Qed.

End FencedReplies.

(** * Further properties of the orchestrator *)

Section Ledger.

Import GeminiService App.

Variable toLowerCase : string -> string.
Variable JSON_parse : string -> Exn SignDetectionResult.

Local Abbreviation step := (App.step toLowerCase JSON_parse).
Local Abbreviation run := (App.run toLowerCase JSON_parse).
Local Abbreviation wordResult := (App.wordResult JSON_parse).
Local Abbreviation sentenceResult := (App.sentenceResult JSON_parse).

Ltac cases :=
  repeat (cbn in *;
          match goal with
          | |- context [match ?x with _ => _ end] =>
              is_var x; destruct x eqn:?
          | |- context [match ?x with _ => _ end] => destruct x eqn:?
          end);
  cbn in *.

Ltac handlers :=
  unfold App.step, exec, handleFrameCapture, handleWordDetection,
    toggleRecording, modeButton_onClick, clearHistory,
    App.handleWordDetection_resume, App.toggleRecording_resume, dedupAppend.

Lemma run_step (st : Store) (es : list Event) (e : Event) :
  run st (es ++ [e]) = step (run st es) e.
Proof. apply fold_left_app. Qed.

Lemma run_cons (st : Store) (e : Event) (es : list Event) :
  run st (e :: es) = run (step st e) es.
Proof. reflexivity. Qed.

(** ** The frame counter *)

Lemma step_counts (st : Store) (e : Event) :
  frameCount st = length (framesBufferRef st) ->
  frameCount (step st e) = length (framesBufferRef (step st e)).
Proof.
  destruct e; handlers; cases; intros; try rewrite length_app; cbn;
    try lia; try assumption.
Qed.

(** X9. The frame counter is the length of the frame buffer after every
    sequence of frames, clicks and replies. *)
Theorem frameCount_is_buffer_length (events : list Event) :
  frameCount (run initial events)
  = length (framesBufferRef (run initial events)).
Proof.
  induction events as [|e events IH] using rev_ind.
  - reflexivity.
  - rewrite run_step. apply step_counts, IH.
Qed.

(** ** The session state *)

Lemma step_not_ERROR (st : Store) (e : Event) :
  appState st <> ERROR -> appState (step st e) <> ERROR.
Proof.
  destruct e; handlers; cases; intros; try discriminate; try assumption;
    try congruence.
Qed.

(** X10. No sequence of frames, clicks and replies makes [appState]
    ERROR. *)
Theorem appState_is_never_ERROR (events : list Event) :
  appState (run initial events) <> ERROR.
Proof.
  induction events as [|e events IH] using rev_ind.
  - discriminate.
  - rewrite run_step. apply step_not_ERROR, IH.
Qed.

(** ** History and speech *)

(** A step other than clearing the history leaves history and speech as
    they are, or is a reply that appends one entry and speaks its text. *)
Lemma step_ledger (st : Store) (e : Event) :
  isClearHistory e = false ->
  (history (step st e) = history st /\ spoken (step st e) = spoken st) \/
  (isReply e = true /\
   exists item,
     history (step st e) = history st ++ [item] /\
     spoken (step st e) = spoken st ++ [text item]).
Proof.
  destruct e; intros Hc; try discriminate; handlers; cases;
    try (left; split; reflexivity).
  all: right; split; [reflexivity|]; eexists; split; reflexivity.
Qed.

Lemma step_spoken (st : Store) (e : Event) :
  spoken (step st e) = spoken st \/
  (isReply e = true /\ exists t, spoken (step st e) = spoken st ++ [t]).
Proof.
  destruct (isClearHistory e) eqn:Hc.
  - destruct e; try discriminate. left. reflexivity.
  - destruct (step_ledger st e Hc) as [[_ S] | (R & item & _ & S)].
    + left. exact S.
    + right. split; [exact R|]. exists (text item). exact S.
Qed.

Lemma step_history_length (st : Store) (e : Event) :
  length (history (step st e))
  <= length (history st) + (if isReply e then 1 else 0).
Proof.
  destruct (isClearHistory e) eqn:Hc.
  - destruct e; try discriminate. cbn. lia.
  - destruct (step_ledger st e Hc) as [[H _] | (R & item & H & _)];
      rewrite H; [lia|]. rewrite R, length_app. cbn. lia.
Qed.

(** X11. As long as the history is not cleared, what has been spoken is
    the texts of the history, in order: an entry is appended exactly when
    its text is spoken. *)
Theorem spoken_is_history_texts (events : list Event) :
  forallb (fun e => negb (isClearHistory e)) events = true ->
  spoken (run initial events) = map text (history (run initial events)).
Proof.
  induction events as [|e events IH] using rev_ind; [reflexivity|].
  rewrite forallb_app. intros H. apply andb_prop in H.
  destruct H as [Hes He]. cbn in He. rewrite andb_true_r in He.
  apply negb_true_iff in He. specialize (IH Hes).
  rewrite run_step.
  destruct (step_ledger (run initial events) e He)
    as [[H S] | (_ & item & H & S)]; rewrite H, S.
  - exact IH.
  - rewrite map_app, IH. reflexivity.
Qed.

(** X12. Entries and speech come from replies only: after any sequence of
    events the history has at most as many entries as there were replies,
    and so has the speech. *)
Theorem at_most_one_entry_per_reply (events : list Event) :
  length (history (run initial events)) <= length (filter isReply events) /\
  length (spoken (run initial events)) <= length (filter isReply events).
Proof.
  induction events as [|e events [IHh IHs]] using rev_ind.
  - cbn. lia.
  - rewrite run_step, filter_app, length_app. cbn [filter]. split.
    + pose proof (step_history_length (run initial events) e) as H.
      destruct (isReply e); cbn in *; lia.
    + destruct (step_spoken (run initial events) e)
        as [S | (R & t & S)]; rewrite S.
      * lia.
      * rewrite R, length_app. cbn. lia.
Qed.

(** ** A recording *)

Lemma record_frames (frames : list string) :
  forall st,
    detectionMode st = SENTENCE ->
    appState st = RECORDING ->
    let st' := run st (map FrameCaptured frames) in
    framesBufferRef st' = framesBufferRef st ++ frames /\
    frameCount st' = frameCount st + length frames /\
    appState st' = RECORDING /\
    detectionMode st' = SENTENCE /\
    signLanguage st' = signLanguage st /\
    sentenceInFlight st' = sentenceInFlight st /\
    wordInFlight st' = wordInFlight st /\
    history st' = history st.
Proof.
  induction frames as [|frame frames IH]; intros st Hm Hs.
  - cbn. rewrite app_nil_r, Nat.add_0_r. repeat split; assumption.
  - cbn [map]. rewrite run_cons.
    assert (Hstep :
      let st1 := step st (FrameCaptured frame) in
      framesBufferRef st1 = framesBufferRef st ++ [frame] /\
      frameCount st1 = frameCount st + 1 /\
      appState st1 = RECORDING /\ detectionMode st1 = SENTENCE /\
      signLanguage st1 = signLanguage st /\
      sentenceInFlight st1 = sentenceInFlight st /\
      wordInFlight st1 = wordInFlight st /\ history st1 = history st).
    { unfold App.step, exec, handleFrameCapture. cbn.
      rewrite Hm, Hs. cbn. repeat split; assumption. }
    destruct Hstep as (B & C & S & M & L & SF & WF & H).
    destruct (IH _ M S) as (B' & C' & S' & M' & L' & SF' & WF' & H').
    cbv zeta. rewrite B', C', B, C, <- app_assoc, length_cons.
    repeat split; try assumption; try congruence. lia.
Qed.

Lemma start_recording (st : Store) :
  appState st <> RECORDING ->
  let st1 := step st RecordClicked in
  framesBufferRef st1 = [] /\ appState st1 = RECORDING /\
  detectionMode st1 = detectionMode st /\
  signLanguage st1 = signLanguage st /\
  sentenceInFlight st1 = sentenceInFlight st /\ history st1 = history st.
Proof.
  intros Hs. unfold App.step, exec, toggleRecording. cbn.
  destruct (appState st); try contradiction; cbn; repeat split.
Qed.

Lemma stop_recording (st : Store) :
  appState st = RECORDING ->
  framesBufferRef st <> [] ->
  let st1 := step st RecordClicked in
  appState st1 = PROCESSING /\
  sentenceInFlight st1
  = sentenceInFlight st
    ++ [mkSentenceCall (framesBufferRef st) (signLanguage st)] /\
  history st1 = history st.
Proof.
  intros Hs Hb. unfold App.step, exec, toggleRecording. cbn.
  rewrite Hs. cbn.
  destruct (framesBufferRef st) as [|frame frames]; [contradiction|].
  cbn. repeat split.
Qed.

Lemma stop_without_frames (st : Store) :
  appState st = RECORDING ->
  framesBufferRef st = [] ->
  let st1 := step st RecordClicked in
  framesBufferRef st1 = [] /\ appState st1 = IDLE /\
  sentenceInFlight st1 = sentenceInFlight st /\ history st1 = history st.
Proof.
  intros Hs Hb. unfold App.step, exec, toggleRecording. cbn.
  rewrite Hs. cbn. rewrite Hb. cbn. repeat split.
Qed.

(** X13. A recording from start to stop: in sentence mode, from a store
    that is not recording, a click on the record button, the frames, and a
    second click.  With at least one frame they leave one more sentence
    call in flight, with exactly the frames captured in between, in their
    order, and the language selected, and [appState] is PROCESSING.  With no
    frame they leave no call and [appState] is IDLE.  In both cases the
    history is untouched, and frames that were in the buffer before the
    first click are not part of the call. *)
Theorem recording_sends_its_frames (st : Store) (frames : list string) :
  detectionMode st = SENTENCE ->
  appState st <> RECORDING ->
  let st' := run st (RecordClicked :: map FrameCaptured frames
                     ++ [RecordClicked]) in
  (frames <> [] ->
     sentenceInFlight st'
     = sentenceInFlight st ++ [mkSentenceCall frames (signLanguage st)] /\
     appState st' = PROCESSING /\
     history st' = history st) /\
  (frames = [] ->
     sentenceInFlight st' = sentenceInFlight st /\
     appState st' = IDLE /\
     framesBufferRef st' = [] /\
     history st' = history st).
Proof.
  intros Hm Hs st'. subst st'.
  rewrite run_cons, run_step.
  destruct (start_recording st Hs) as (B & S & M & L & SF & H).
  rewrite Hm in M.
  destruct (record_frames frames _ M S)
    as (B' & _ & S' & _ & L' & SF' & _ & H').
  rewrite B in B'. cbn [app] in B'.
  remember (run (step st RecordClicked) (map FrameCaptured frames)) as st2.
  split; intros Hf.
  - assert (Hb : framesBufferRef st2 <> []) by (rewrite B'; exact Hf).
    destruct (stop_recording st2 S' Hb) as (S2 & SF2 & H2).
    rewrite SF2, S2, H2, B', SF', SF, L', L, H', H. repeat split.
  - assert (Hb : framesBufferRef st2 = []) by (rewrite B'; exact Hf).
    destruct (stop_without_frames st2 S' Hb) as (B2 & S2 & SF2 & H2).
    rewrite SF2, S2, H2, B2, SF', SF, H', H. repeat split.
Qed.

(** ** Results that are not signs *)

(** X14. A word result that is not a sign, or has an empty translation,
    appends nothing and speaks nothing; the prediction on display, if there
    is one, keeps its sign, translation and confidence and gets the
    description "No clear sign detected"; with none on display nothing is
    shown.  A sentence result that is not a sign appends nothing and speaks
    nothing, and the display becomes the result that is no sign, has the
    translation "Could not understand sentence", confidence 0 and no
    description. *)
Theorem rejected_results_leave_no_entry (st : Store) (reply : Exn Response)
  (t_id t_stamp : Z) (result : SignDetectionResult) :
  (forall call rest,
     wordInFlight st = call :: rest ->
     wordResult reply call = Return result ->
     isSign result = false \/ translation result = ""%string ->
     let st' := step st (WordReplied reply t_id t_stamp) in
     history st' = history st /\ spoken st' = spoken st /\
     (currentPrediction st = None -> currentPrediction st' = None) /\
     (forall shown,
        currentPrediction st = Some shown ->
        currentPrediction st'
        = Some {| isSign := isSign shown;
                  translation := translation shown;
                  confidence := confidence shown;
                  description := Some "No clear sign detected" |})) /\
  (forall call rest,
     sentenceInFlight st = call :: rest ->
     sentenceResult reply call = Return result ->
     isSign result = false ->
     let st' := step st (SentenceReplied reply t_id t_stamp) in
     history st' = history st /\ spoken st' = spoken st /\
     currentPrediction st'
     = Some {| isSign := false;
               translation := "Could not understand sentence";
               confidence := 0%float;
               description := None |}).
Proof.
  split; intros call rest Hcall Hres Hneg; unfold App.step;
    rewrite Hcall, Hres.
  - assert (Hc : isSign result && truthy (translation result) = false).
    { destruct Hneg as [-> | ->]; [reflexivity|]. apply andb_false_r. }
    unfold exec, App.handleWordDetection_resume. cbn. rewrite Hc. cbn.
    destruct (currentPrediction st) as [shown|]; repeat split;
      try discriminate.
    intros shown' E. injection E as <-. reflexivity.
  - unfold exec, App.toggleRecording_resume. cbn. rewrite Hneg. cbn.
    repeat split.
Qed.

End Ledger.

(** * Properties of the page *)

Section Page.

Import GeminiService App.

Variable toLowerCase : string -> string.
Variable JSON_parse : string -> Exn SignDetectionResult.

Local Abbreviation act := (Screen.act toLowerCase JSON_parse).
Local Abbreviation session := (Screen.session toLowerCase JSON_parse).

(** Case analysis on the innermost test first. *)
Ltac cases :=
  repeat (cbn in *;
          match goal with
          | |- context [match ?x with _ => _ end] =>
              lazymatch x with
              | context [match _ with _ => _ end] => fail
              | _ => destruct x eqn:?
              end
          end);
  cbn in *.

Lemma session_snoc (actions : list Screen.Action) (a : Screen.Action) :
  session (actions ++ [a]) = act (session actions) a.
Proof. apply fold_left_app. Qed.

Lemma one_in_flight {A : Type} (l : list A) :
  length l = 1 -> exists x, l = [x].
Proof. destruct l as [|x [|y l]]; try discriminate. eauto. Qed.

Ltac split_hyps :=
  repeat match goal with
         | H : _ /\ _ |- _ => destruct H
         | H : _ \/ _ |- _ => destruct H
         | H : False |- _ => destruct H
         | H : length _ = 1 |- _ =>
             apply one_in_flight in H; destruct H as [? H]
         end.

Ltac finish :=
  first [ solve [repeat split; auto; discriminate]
        | solve [left; repeat split; auto]
        | solve [right; repeat split; auto] ].

Lemma act_coherent (pg : Screen.Page) (a : Screen.Action) :
  coherent (Screen.store pg) -> coherent (Screen.store (act pg a)).
Proof.
  unfold Screen.act. destruct (Screen.possible pg a) eqn:P; [| auto].
  destruct pg as [st camera]. cbn [Screen.store].
  destruct st as [s m lang pred hist count buffer guard words sentences said].
  unfold coherent, settled. cbn [App.appState App.detectionMode
    App.processingRef App.wordInFlight App.sentenceInFlight
    App.framesBufferRef].
  intros H.
  destruct a; cbn in P;
    unfold Screen.scanTimerRuns, Screen.isAutoMode, Screen.recordingTimerRuns,
      ControlPanel.recordButtonClickable, ControlPanel.recordButtonRendered,
      ControlPanel.recordButtonDisabled, ControlPanel.modeButtonClickable,
      ControlPanel.modeSwitcherRendered, ControlPanel.modeButtonDisabled
      in P; cbn in P.
  all: destruct s; split_hyps; subst; cbn in P.
  all: try (destruct camera; cbn in P); try (destruct m; cbn in P).
  all: try discriminate P.
  all: unfold Screen.perform, Screen.withStore, Screen.staleFrameCapture,
         App.step, exec, handleFrameCapture, handleWordDetection,
         toggleRecording, modeButton_onClick, clearHistory,
         App.handleWordDetection_resume,
         App.toggleRecording_resume, dedupAppend;
       cbn [Screen.store].
  all: cases.
  all: finish.
Qed.

Lemma session_coherent (actions : list Screen.Action) :
  coherent (Screen.store (session actions)).
Proof.
  induction actions as [|a actions IH] using rev_ind.
  - cbn. unfold settled. cbn. auto.
  - rewrite session_snoc. apply act_coherent, IH.
Qed.

(** C9. On the page a mode button is disabled while [appState] is
    RECORDING, and its click handler ignores a click then, in every store:
    the mode is switched only when not RECORDING.  After every click on a
    mode button while [appState] is IDLE or SCANNING the frame buffer is
    empty and the guard is clear, and with the camera on the detection mode
    is the one clicked.  (The handler writes the mode only: at rest the
    page has no frame buffered and no word call in flight.) *)
Theorem mode_switch_is_locked_while_recording (actions : list Screen.Action)
  (m : DetectionMode) :
  (forall st,
     appState st = RECORDING ->
     App.step toLowerCase JSON_parse st (ModeClicked m) = st) /\
  (appState (Screen.store (session actions)) = RECORDING ->
   act (session actions) (Screen.ModeButton m) = session actions) /\
  (appState (Screen.store (session actions)) = IDLE \/
   appState (Screen.store (session actions)) = SCANNING ->
   framesBufferRef
     (Screen.store (act (session actions) (Screen.ModeButton m))) = [] /\
   processingRef
     (Screen.store (act (session actions) (Screen.ModeButton m))) = false /\
   (Screen.isCameraActive (session actions) = true ->
    detectionMode
      (Screen.store (act (session actions) (Screen.ModeButton m))) = m)).
Proof.
  split; [| split].
  - intros st E.
    apply (mode_switch_changes_only_the_mode toLowerCase JSON_parse st m), E.
  - intros E. unfold Screen.act. cbn [Screen.possible].
    unfold ControlPanel.modeButtonClickable, ControlPanel.modeButtonDisabled.
    cbn. rewrite E. cbn. rewrite andb_false_r. reflexivity.
  - intros E.
    pose proof (session_coherent actions) as H.
    unfold coherent, settled in H.
    assert (Hrest : framesBufferRef (Screen.store (session actions)) = [] /\
                    processingRef (Screen.store (session actions)) = false)
      by (destruct E as [E|E]; rewrite E in H; tauto).
    assert (Hn : appState (Screen.store (session actions)) <> RECORDING)
      by (destruct E as [E|E]; rewrite E; discriminate).
    destruct (mode_switch_changes_only_the_mode toLowerCase JSON_parse
                (Screen.store (session actions)) m)
      as (_ & Hm & Hb & Hg & _).
    unfold Screen.act. cbn [Screen.possible].
    unfold ControlPanel.modeButtonClickable,
      ControlPanel.modeSwitcherRendered, ControlPanel.modeButtonDisabled.
    cbn [Screen.props ControlPanel.isCameraActive ControlPanel.appState].
    destruct (Screen.isCameraActive (session actions)); cbn [andb].
    + destruct (AppState_eqb (appState (Screen.store (session actions)))
                  RECORDING) eqn:R.
      * exfalso. apply Hn.
        destruct (appState (Screen.store (session actions)));
          try discriminate R; reflexivity.
      * cbn [negb Screen.perform Screen.withStore Screen.store].
        rewrite Hb, Hg. repeat split; try apply Hrest. intros _. apply Hm, Hn.
    + repeat split; try apply Hrest. discriminate.
Qed.

(** X15. On the page at most one inference call, of either kind, is in
    flight, and one is exactly while [appState] is PROCESSING; the guard is
    set exactly while it is a word call. *)
Theorem page_has_one_call_while_processing (actions : list Screen.Action) :
  length (wordInFlight (Screen.store (session actions)))
  + length (sentenceInFlight (Screen.store (session actions)))
  = (if AppState_eqb (appState (Screen.store (session actions))) PROCESSING
     then 1 else 0) /\
  length (wordInFlight (Screen.store (session actions)))
  = (if processingRef (Screen.store (session actions)) then 1 else 0).
Proof.
  pose proof (session_coherent actions) as H.
  unfold coherent, settled in H.
  destruct (appState (Screen.store (session actions))); cbn.
  all: repeat match goal with
              | H : _ /\ _ |- _ => destruct H
              | H : _ \/ _ |- _ => destruct H
              | H : False |- _ => destruct H
              end.
  all: repeat match goal with H : _ = _ |- _ => rewrite H end.
  all: split; reflexivity.
Qed.

(** X16. On the page, whenever [appState] is IDLE or SCANNING the frame
    buffer is empty, the guard is clear and no call is in flight: a click
    on a mode button at rest finds nothing to reset. *)
Theorem page_at_rest_is_clean (actions : list Screen.Action) :
  appState (Screen.store (session actions)) = IDLE \/
  appState (Screen.store (session actions)) = SCANNING ->
  framesBufferRef (Screen.store (session actions)) = [] /\
  processingRef (Screen.store (session actions)) = false /\
  wordInFlight (Screen.store (session actions)) = [] /\
  sentenceInFlight (Screen.store (session actions)) = [].
Proof.
  pose proof (session_coherent actions) as H.
  unfold coherent, settled in H.
  intros [E|E]; rewrite E in H; tauto.
Qed.

(** X17. On the page a recording is always in sentence mode, with the guard
    clear and no call in flight. *)
Theorem page_records_in_sentence_mode (actions : list Screen.Action) :
  appState (Screen.store (session actions)) = RECORDING ->
  detectionMode (Screen.store (session actions)) = SENTENCE /\
  processingRef (Screen.store (session actions)) = false /\
  wordInFlight (Screen.store (session actions)) = [] /\
  sentenceInFlight (Screen.store (session actions)) = [].
Proof.
  pose proof (session_coherent actions) as H.
  unfold coherent, settled in H.
  intros E; rewrite E in H; tauto.
Qed.

(** X18. On the page the guard never drops a frame: whenever the scan
    interval exists, its tick finds the guard clear and issues the one call
    in flight, for the frame captured and in the language of the render
    the interval was created in. *)
Theorem page_scan_tick_issues_a_call (actions : list Screen.Action)
  (base64Image : string) (closureLanguage : SignLanguage) :
  Screen.scanTimerRuns (session actions) = true ->
  processingRef (Screen.store (session actions)) = false /\
  wordInFlight
    (Screen.store
       (act (session actions)
          (Screen.ScanTick base64Image closureLanguage)))
  = [mkWordCall base64Image closureLanguage] /\
  appState
    (Screen.store
       (act (session actions)
          (Screen.ScanTick base64Image closureLanguage)))
  = PROCESSING.
Proof.
  pose proof (session_coherent actions) as H.
  unfold Screen.act. cbn [Screen.possible]. intros P. rewrite P.
  unfold Screen.scanTimerRuns, Screen.isAutoMode in P.
  destruct (session actions) as [st camera]. cbn [Screen.store] in *.
  destruct st as [s m lang pred hist count buffer guard words sentences said].
  unfold coherent, settled in H. cbn in H, P.
  destruct camera, m, s; cbn in P; try discriminate P.
  all: split_hyps; subst.
  all: unfold Screen.perform, Screen.withStore, Screen.staleFrameCapture,
         App.step, exec, handleFrameCapture, handleWordDetection.
  all: cbn. all: repeat split.
Qed.

End Page.

(** * Properties of the account service *)

Section Accounts.

Import AuthService.

Variable toLowerCase : string -> string.
Variable JSON_stringify_users : list StoredUser -> string.
Variable JSON_parse_users : string -> Exn (list StoredUser).
Variable JSON_stringify_user : User -> string.
Variable JSON_parse_user : string -> Exn User.

Local Abbreviation login :=
  (AuthService.login toLowerCase JSON_parse_users JSON_stringify_user).
Local Abbreviation register :=
  (AuthService.register toLowerCase JSON_stringify_users JSON_parse_users
     JSON_stringify_user).
Local Abbreviation getCurrentUser :=
  (AuthService.getCurrentUser JSON_parse_user).
Local Abbreviation accountsOf := (accounts JSON_parse_users).
Local Abbreviation keyOf := (emailKey toLowerCase).
Local Abbreviation serve :=
  (AuthService.serve toLowerCase JSON_stringify_users JSON_parse_users
     JSON_stringify_user).
Local Abbreviation serveAll :=
  (AuthService.serveAll toLowerCase JSON_stringify_users JSON_parse_users
     JSON_stringify_user).

(** What parsing gives back what was written. *)
Hypothesis users_round_trip :
  forall us, JSON_parse_users (JSON_stringify_users us) = Return us.
Hypothesis users_text : forall us, JSON_stringify_users us <> ""%string.
Hypothesis user_round_trip :
  forall u, JSON_parse_user (JSON_stringify_user u) = Return u.
Hypothesis user_text : forall u, JSON_stringify_user u <> ""%string.

(** The storage after a successful [setItem]. *)
Let written (key value : string) (ls : LocalStorage) : LocalStorage :=
  {| items := fun k => if (k =? key)%string then Some value else items ls k;
     denied := denied ls |}.

Lemma storage_getItem_eq (key : string) (ls : LocalStorage) :
  storage_getItem key ls
  = (Return (if denied ls then None else items ls key), ls).
Proof.
  unfold storage_getItem, tryStorage, localStorage_getItem.
  destruct (denied ls); reflexivity.
Qed.

Lemma storage_setItem_eq (key value : string) (ls : LocalStorage) :
  storage_setItem key value ls
  = (Return tt, if denied ls then ls else written key value ls).
Proof.
  unfold storage_setItem, tryStorage, localStorage_setItem.
  destruct (denied ls) eqn:D; cbn; [reflexivity|].
  unfold written. rewrite D. reflexivity.
Qed.

Lemma readUsers_eq (ls : LocalStorage) :
  readUsers JSON_parse_users ls = (accountsOf ls, ls).
Proof.
  unfold accounts, readUsers. cbn [bind Storage_Monad].
  rewrite storage_getItem_eq. cbn [fst snd].
  destruct (if denied ls then None else items ls USERS_KEY) as [raw|];
    [destruct (truthy raw)|]; reflexivity.
Qed.

Lemma find_app {A : Type} (p : A -> bool) (l1 l2 : list A) :
  find p (l1 ++ l2)
  = match find p l1 with
    | Some x => Some x
    | None => find p l2
    end.
Proof.
  induction l1 as [|x l1 IH]; cbn; [reflexivity|].
  destruct (p x); [reflexivity | exact IH].
Qed.

(** [login] in one equation. *)
Lemma login_eq (email_ password_ : string) (ls : LocalStorage) :
  login email_ password_ ls
  = match accountsOf ls with
    | Throw e => (Throw e, ls)
    | Return users =>
        match find (fun u => (keyOf u =? toLowerCase email_)%string
                             && (password u =? password_)%string) users with
        | None => (Throw "Invalid email or password", ls)
        | Some user =>
            (Return (account user),
             if denied ls then ls
             else written SESSION_KEY (JSON_stringify_user (account user)) ls)
        end
    end.
Proof.
  unfold AuthService.login. cbn [bind Storage_Monad].
  rewrite readUsers_eq. cbn [fst snd].
  destruct (accountsOf ls) as [users|e]; [| reflexivity].
  unfold emailKey.
  destruct (find _ users) as [user|]; [| reflexivity].
  cbn [bind Storage_Monad]. rewrite storage_setItem_eq. cbn [fst snd].
  destruct user as [[i n e] p]. reflexivity.
Qed.

(** [register] in one equation. *)
Lemma register_eq (name_ email_ password_ : string) (now : Z)
  (ls : LocalStorage) :
  register name_ email_ password_ now ls
  = match accountsOf ls with
    | Throw e => (Throw e, ls)
    | Return users =>
        match find (fun u => (keyOf u =? toLowerCase email_)%string)
                users with
        | Some _ => (Throw "Email already registered", ls)
        | None =>
            let user := {| id := toString now; name := name_;
                           email := email_ |} in
            (Return user,
             if denied ls then ls
             else written SESSION_KEY (JSON_stringify_user user)
                    (written USERS_KEY
                       (JSON_stringify_users
                          (users ++ [{| account := user;
                                        password := password_ |}])) ls))
        end
    end.
Proof.
  unfold AuthService.register. cbn [bind Storage_Monad].
  rewrite readUsers_eq. cbn [fst snd].
  destruct (accountsOf ls) as [users|e]; [| reflexivity].
  unfold emailKey.
  destruct (find _ users) as [user|]; [reflexivity|].
  cbn [bind Storage_Monad]. rewrite storage_setItem_eq. cbn [fst snd].
  rewrite storage_setItem_eq. cbn [fst snd].
  destruct (denied ls) eqn:D; [rewrite D; reflexivity|].
  unfold written at 1. cbn [denied]. rewrite D. reflexivity.
Qed.

Lemma getCurrentUser_eq (ls : LocalStorage) :
  getCurrentUser ls
  = (match (if denied ls then None else items ls SESSION_KEY) with
     | Some s =>
         if truthy s
         then match JSON_parse_user s with
              | Return user => Return (Some user)
              | Throw e => Throw e
              end
         else Return None
     | None => Return None
     end, ls).
Proof.
  unfold AuthService.getCurrentUser. cbn [bind Storage_Monad].
  rewrite storage_getItem_eq. cbn [fst snd].
  destruct (if denied ls then None else items ls SESSION_KEY) as [s|];
    [| reflexivity].
  destruct (truthy s); [| reflexivity].
  cbn [bind Storage_Monad]. unfold lift. cbn [fst snd].
  destruct (JSON_parse_user s); reflexivity.
Qed.

(** The accounts after the users item has been written. *)
Lemma accounts_written_users (users : list StoredUser) (ls : LocalStorage) :
  denied ls = false ->
  accountsOf (written USERS_KEY (JSON_stringify_users users) ls)
  = Return users.
Proof.
  intros D. unfold accounts, readUsers. cbn [bind Storage_Monad].
  rewrite storage_getItem_eq. cbn. rewrite D. cbn.
  pose proof (users_text users) as T. apply truthy_nonempty in T.
  rewrite T. unfold lift. cbn. apply users_round_trip.
Qed.

(** Writing the session leaves the accounts as they are. *)
Lemma accounts_written_session (value : string) (ls : LocalStorage) :
  accountsOf (written SESSION_KEY value ls) = accountsOf ls.
Proof.
  unfold accounts, readUsers. cbn [bind Storage_Monad].
  rewrite !storage_getItem_eq. unfold written. cbn.
  destruct (if denied ls then None else items ls USERS_KEY) as [raw|];
    [destruct (truthy raw)|]; reflexivity.
Qed.

Lemma getCurrentUser_written_session (user : User) (ls : LocalStorage) :
  denied ls = false ->
  fst (getCurrentUser (written SESSION_KEY (JSON_stringify_user user) ls))
  = Return (Some user).
Proof.
  intros D. rewrite getCurrentUser_eq. cbn. rewrite D. cbn.
  pose proof (user_text user) as T. apply truthy_nonempty in T.
  rewrite T, user_round_trip. reflexivity.
Qed.

Lemma find_all_false {A : Type} (p : A -> bool) (l : list A) :
  (forall x, In x l -> p x = false) -> find p l = None.
Proof.
  induction l as [|x l IH]; intros H; cbn; [reflexivity|].
  rewrite (H x (or_introl eq_refl)). apply IH. intros y Hy.
  apply H. right. exact Hy.
Qed.

Lemma find_one_true {A : Type} (p : A -> bool) (l : list A) (x : A) :
  In x l -> p x = true -> exists y, find p l = Some y.
Proof.
  induction l as [|z l IH]; intros Hin Hp; [destruct Hin|].
  cbn. destruct (p z) eqn:Pz; [eauto|].
  destruct Hin as [->|Hin]; [congruence | apply IH; assumption].
Qed.

Lemma logout_eq (ls : LocalStorage) :
  logout ls
  = (Return tt,
     if denied ls then ls
     else {| items := fun k => if (k =? SESSION_KEY)%string then None
                               else items ls k;
             denied := denied ls |}).
Proof.
  unfold logout, storage_removeItem, tryStorage, localStorage_removeItem.
  destruct (denied ls); reflexivity.
Qed.

Lemma accounts_logout (ls : LocalStorage) :
  accountsOf (snd (logout ls)) = accountsOf ls.
Proof.
  rewrite logout_eq. cbn [snd].
  destruct (denied ls) eqn:D; [reflexivity|].
  unfold accounts, readUsers. cbn [bind Storage_Monad].
  rewrite !storage_getItem_eq. cbn. rewrite ?D.
  destruct (items ls USERS_KEY) as [raw|]; [destruct (truthy raw)|];
    reflexivity.
Qed.

(** ** Sessions *)

(** X19. With the storage in reach, a registration or a login that
    returns a user leaves that user as the current user, without the
    password; after a logout there is no current user, and the stored
    accounts are what they were. *)
Theorem session_follows_the_last_call (ls : LocalStorage) :
  denied ls = false ->
  (forall name_ email_ password_ now user ls',
     register name_ email_ password_ now ls = (Return user, ls') ->
     fst (getCurrentUser ls') = Return (Some user)) /\
  (forall email_ password_ user ls',
     login email_ password_ ls = (Return user, ls') ->
     fst (getCurrentUser ls') = Return (Some user)) /\
  fst (getCurrentUser (snd (logout ls))) = Return None /\
  accountsOf (snd (logout ls)) = accountsOf ls.
Proof.
  intros D. split; [| split; [| split]].
  - intros name_ email_ password_ now user ls' H.
    rewrite register_eq in H.
    destruct (accountsOf ls) as [users|e]; [| discriminate].
    destruct (find _ users); [discriminate|].
    cbv zeta in H. rewrite D in H. injection H as <- <-.
    apply getCurrentUser_written_session. exact D.
  - intros email_ password_ user ls' H.
    rewrite login_eq in H.
    destruct (accountsOf ls) as [users|e]; [| discriminate].
    destruct (find _ users) as [u|]; [| discriminate].
    rewrite D in H. injection H as <- <-.
    apply getCurrentUser_written_session. exact D.
  - rewrite logout_eq, getCurrentUser_eq. cbn. rewrite D. reflexivity.
  - apply accounts_logout.
Qed.

(** ** Registration and login *)

(** X20. [register] refuses an email that a stored user already has, case
    ignored: it throws and writes nothing. *)
Theorem register_rejects_known_email (name_ email_ password_ : string)
  (now : Z) (ls : LocalStorage) (users : list StoredUser) (u : StoredUser) :
  accountsOf ls = Return users ->
  In u users ->
  keyOf u = toLowerCase email_ ->
  register name_ email_ password_ now ls
  = (Throw "Email already registered", ls).
Proof.
  intros Ha Hin Hk. rewrite register_eq, Ha.
  destruct (find_one_true
              (fun v => (keyOf v =? toLowerCase email_)%string) users u Hin)
    as [y Hy].
  - rewrite Hk. apply String.eqb_refl.
  - rewrite Hy. reflexivity.
Qed.

(** X21. [login] returns a user only if a stored user has that email, case
    ignored, and exactly that password; it then returns that user's id,
    name and email.  When every stored user with that email has another
    password, or none has that email, it throws and writes nothing. *)
Theorem login_requires_matching_account (email_ password_ : string)
  (ls : LocalStorage) :
  (forall user ls',
     login email_ password_ ls = (Return user, ls') ->
     exists users u,
       accountsOf ls = Return users /\ In u users /\
       keyOf u = toLowerCase email_ /\ password u = password_ /\
       user = account u) /\
  (forall users,
     accountsOf ls = Return users ->
     (forall u, In u users -> keyOf u = toLowerCase email_ ->
                password u <> password_) ->
     login email_ password_ ls = (Throw "Invalid email or password", ls)).
Proof.
  split.
  - intros user ls' H. rewrite login_eq in H.
    destruct (accountsOf ls) as [users|e]; [| discriminate].
    destruct (find _ users) as [u|] eqn:F; [| discriminate].
    injection H as <- _. apply find_some in F. destruct F as [Hin Hp].
    apply andb_prop in Hp. destruct Hp as [Hk Hpw].
    apply String.eqb_eq in Hk, Hpw.
    exists users, u. repeat split; assumption.
  - intros users Ha Hno. rewrite login_eq, Ha.
    rewrite find_all_false; [reflexivity|].
    intros u Hin. destruct (String.eqb_spec (keyOf u) (toLowerCase email_));
      [| reflexivity].
    cbn. apply String.eqb_neq. apply Hno; assumption.
Qed.

(** X22. When the browser denies access to the storage nothing is kept:
    every login throws, every registration returns a user whatever the
    email, nobody is the current user, and a logout passes. *)
Theorem denied_storage_keeps_nothing (ls : LocalStorage) :
  denied ls = true ->
  (forall email_ password_,
     login email_ password_ ls = (Throw "Invalid email or password", ls)) /\
  (forall name_ email_ password_ now,
     register name_ email_ password_ now ls
     = (Return {| id := toString now; name := name_; email := email_ |},
        ls)) /\
  getCurrentUser ls = (Return None, ls) /\
  logout ls = (Return tt, ls).
Proof.
  intros D.
  assert (Ha : accountsOf ls = Return []).
  { unfold accounts, readUsers. cbn [bind Storage_Monad].
    rewrite storage_getItem_eq. rewrite D. reflexivity. }
  repeat split.
  - intros. rewrite login_eq, Ha. reflexivity.
  - intros. rewrite register_eq, Ha. cbn. rewrite D. reflexivity.
  - rewrite getCurrentUser_eq, D. reflexivity.
  - rewrite logout_eq, D. reflexivity.
Qed.

(** ** The stored accounts *)

Lemma serve_accounts (ls : LocalStorage) (c : Call)
  (users : list StoredUser) :
  denied ls = false ->
  accountsOf ls = Return users ->
  denied (serve ls c) = false /\
  (accountsOf (serve ls c) = Return users \/
   exists name_ email_ password_ now,
     c = Register name_ email_ password_ now /\
     (forall u, In u users -> keyOf u <> toLowerCase email_) /\
     accountsOf (serve ls c)
     = Return (users ++ [{| account := {| id := toString now;
                                          name := name_;
                                          email := email_ |};
                            password := password_ |}])).
Proof.
  intros D Ha. destruct c as [email_ password_ | name_ email_ password_ now |];
    cbn [AuthService.serve].
  - rewrite login_eq, Ha.
    destruct (find _ users); cbn [snd]; rewrite ?D; [| auto].
    split; [exact D|]. left. rewrite accounts_written_session. exact Ha.
  - rewrite register_eq, Ha.
    destruct (find _ users) eqn:F; cbn [snd]; rewrite ?D; [auto|].
    split; [exact D|]. right. exists name_, email_, password_, now.
    split; [reflexivity|]. split.
    + intros u Hin. apply (find_none _ _ F) in Hin.
      apply String.eqb_neq. exact Hin.
    + rewrite accounts_written_session.
      apply accounts_written_users. exact D.
  - split.
    + rewrite logout_eq. cbn [snd]. rewrite D. reflexivity.
    + left. rewrite accounts_logout. exact Ha.
Qed.

Lemma NoDup_snoc {A : Type} (l : list A) (x : A) :
  NoDup l -> ~ In x l -> NoDup (l ++ [x]).
Proof.
  induction l as [|y l IH]; intros Hd Hx; cbn.
  - repeat constructor. intros [].
  - inversion Hd; subst. constructor.
    + intros Hin. apply in_app_or in Hin. destruct Hin as [Hin|[->|[]]].
      * contradiction.
      * apply Hx. left. reflexivity.
    + apply IH; [assumption|]. intros Hin. apply Hx. right. exact Hin.
Qed.

Lemma serveAll_snoc (ls : LocalStorage) (calls : list Call) (c : Call) :
  serveAll ls (calls ++ [c]) = serve (serveAll ls calls) c.
Proof. apply fold_left_app. Qed.

(** X23. The stored accounts only grow, and their emails stay distinct,
    case ignored: from a storage in reach whose users have distinct
    emails, every sequence of logins, registrations and logouts leaves the
    same users followed by the newly registered ones, still with distinct
    emails. *)
Theorem accounts_grow_with_distinct_emails (ls : LocalStorage)
  (users : list StoredUser) (calls : list Call) :
  denied ls = false ->
  accountsOf ls = Return users ->
  NoDup (map keyOf users) ->
  exists more,
    accountsOf (serveAll ls calls) = Return (users ++ more) /\
    NoDup (map keyOf (users ++ more)) /\
    denied (serveAll ls calls) = false.
Proof.
  intros D Ha Hd.
  induction calls as [|c calls IH] using rev_ind.
  - exists []. rewrite app_nil_r. auto.
  - destruct IH as (more & Ha' & Hd' & D').
    rewrite serveAll_snoc.
    destruct (serve_accounts _ c _ D' Ha')
      as [D'' [Hs | (n & e & p & now & _ & Hnew & Hs)]].
    + exists more. auto.
    + exists (more ++ [{| account := {| id := toString now; name := n;
                                        email := e |};
                          password := p |}]).
      rewrite app_assoc. split; [exact Hs|]. split; [| exact D''].
      rewrite map_app. cbn [map].
      apply NoDup_snoc; [exact Hd'|].
      intros Hin. apply in_map_iff in Hin. destruct Hin as (u & Hk & Hu).
      apply (Hnew u Hu). exact Hk.
Qed.


Lemma serveAll_accounts (ls : LocalStorage) (users : list StoredUser)
  (calls : list Call) :
  denied ls = false ->
  accountsOf ls = Return users ->
  exists more,
    accountsOf (serveAll ls calls) = Return (users ++ more) /\
    denied (serveAll ls calls) = false.
Proof.
  intros D Ha.
  induction calls as [|c calls IH] using rev_ind.
  - exists []. rewrite app_nil_r. auto.
  - destruct IH as (more & Ha' & D').
    rewrite serveAll_snoc.
    destruct (serve_accounts _ c _ D' Ha')
      as [D'' [Hs | (n & e & p & now & _ & _ & Hs)]].
    + exists more. auto.
    + eexists. rewrite app_assoc. split; [exact Hs | exact D''].
Qed.

(** X24. A registered user can log in from then on: with the storage in
    reach, after a registration that returned a user, and after any
    further logins, registrations and logouts, a login with the same
    password and the same email, in any letter case, returns that user. *)
Theorem registered_user_can_always_log_in (ls ls1 : LocalStorage)
  (name_ email_ password_ : string) (now : Z) (user : User)
  (later : list Call) (typed : string) :
  denied ls = false ->
  register name_ email_ password_ now ls = (Return user, ls1) ->
  toLowerCase typed = toLowerCase email_ ->
  user = {| id := toString now; name := name_; email := email_ |} /\
  fst (login typed password_ (serveAll ls1 later)) = Return user.
Proof.
  intros D H Hcase. rewrite register_eq in H.
  destruct (accountsOf ls) as [users|e] eqn:Ha; [| discriminate].
  destruct (find _ users) eqn:F; [discriminate|].
  cbv zeta in H. rewrite D in H. injection H as <- <-.
  split; [reflexivity|].
  set (new := {| account := {| id := toString now; name := name_;
                               email := email_ |};
                 password := password_ |}) in *.
  destruct (serveAll_accounts
              (written SESSION_KEY
                 (JSON_stringify_user (account new))
                 (written USERS_KEY (JSON_stringify_users (users ++ [new]))
                    ls))
              (users ++ [new]) later)
    as (more & Ha' & D').
  - exact D.
  - rewrite accounts_written_session. apply accounts_written_users, D.
  - rewrite login_eq. change (account new) with
      {| id := toString now; name := name_; email := email_ |} in Ha'.
    rewrite Ha', <- app_assoc, find_app.
    rewrite find_all_false.
    + cbn. unfold emailKey. cbn. rewrite Hcase, !String.eqb_refl. reflexivity.
    + intros u Hin. apply (find_none _ _ F) in Hin.
      rewrite Hcase, Hin. reflexivity.
Qed.

End Accounts.

(** ** The concrete serialisation *)

Section HostStorage.

Import AuthService HostStorage.

Lemma append_empty (s : string) : (s ++ "")%string = s.
Proof. induction s as [|c s IH]; cbn; [| rewrite IH]; reflexivity. Qed.

Lemma append_assoc (a b c : string) :
  ((a ++ b) ++ c)%string = (a ++ (b ++ c))%string.
Proof. induction a as [|x a IH]; cbn; [| rewrite IH]; reflexivity. Qed.

Lemma readText_writeText (s rest : string) :
  readText (writeText s ++ rest) = Some (s, rest).
Proof.
  induction s as [|c s IH]; cbn; [reflexivity|]. rewrite IH. reflexivity.
Qed.

Lemma readUser_writeUser (u : User) (rest : string) :
  readUser (writeUser u ++ rest) = Some (u, rest).
Proof.
  destruct u as [i n e]. unfold readUser, writeUser. cbn [id name email].
  rewrite !append_assoc, !readText_writeText. reflexivity.
Qed.

Lemma readStored_writeStored (u : StoredUser) (rest : string) :
  readStored (writeStored u ++ rest) = Some (u, rest).
Proof.
  destruct u as [a p]. unfold readStored, writeStored. cbn [account password].
  rewrite append_assoc, readUser_writeUser, readText_writeText. reflexivity.
Qed.

Lemma readUsers_stringifyUsers (us : list StoredUser) :
  forall fuel rest,
    length us < fuel ->
    HostStorage.readUsers fuel (stringifyUsers us ++ rest) = Some (us, rest).
Proof.
  induction us as [|u us IH]; intros fuel rest Hf;
    (destruct fuel as [|fuel]; [inversion Hf|]); cbn.
  - reflexivity.
  - rewrite append_assoc, readStored_writeStored, IH by (cbn in Hf; lia).
    reflexivity.
Qed.

Lemma stringifyUsers_length (us : list StoredUser) :
  length us < String.length (stringifyUsers us).
Proof.
  induction us as [|u us IH]; cbn; [lia|].
  assert (L : forall a b, String.length b <= String.length (a ++ b)).
  { induction a as [|c a IHa]; intros b; cbn; [lia|].
    specialize (IHa b). lia. }
  specialize (L (writeStored u) (stringifyUsers us)). lia.
Qed.

Lemma parseUsers_stringifyUsers (us : list StoredUser) :
  parseUsers (stringifyUsers us) = Return us.
Proof.
  unfold parseUsers.
  rewrite <- (append_empty (stringifyUsers us)) at 2.
  rewrite readUsers_stringifyUsers; [reflexivity|].
  pose proof (stringifyUsers_length us). lia.
Qed.

Lemma parseUser_stringifyUser (u : User) :
  parseUser (stringifyUser u) = Return u.
Proof.
  unfold parseUser, stringifyUser.
  rewrite <- (append_empty (writeUser u)), readUser_writeUser. reflexivity.
Qed.

Lemma stringifyUsers_text (us : list StoredUser) :
  stringifyUsers us <> ""%string.
Proof. destruct us; discriminate. Qed.

Lemma stringifyUser_text (u : User) : stringifyUser u <> ""%string.
Proof. destruct u as [[|c i] n e]; discriminate. Qed.

End HostStorage.

(** * Further concrete runs *)

Section MoreRuns.

Import GeminiService App.

Local Abbreviation step := (App.step Host.toLowerCase Host.parse).
Local Abbreviation run := (App.run Host.toLowerCase Host.parse).
Local Abbreviation session := (Screen.session Host.toLowerCase Host.parse).
Local Abbreviation act := (Screen.act Host.toLowerCase Host.parse).

Lemma cleanBase64_payload_witness :
  cleanBase64 ("data:image/jpeg;base64" ++ String "," "AAAA") = "AAAA"%string.
Proof.
  refine (proj1 (cleanBase64_payload "data:image/jpeg;base64" "AAAA" _ _ _)).
  - reflexivity.
  - reflexivity.
  - discriminate.
Defined.

Lemma cleanBase64_falls_back_witness :
  cleanBase64 "AAAA" = "AAAA"%string
  /\ cleanBase64 "data:," = "data:,"%string.
Proof.
  split.
  - refine (proj1 (cleanBase64_falls_back "AAAA") _). reflexivity.
  - refine (proj1 (proj2 (cleanBase64_falls_back "data:,") "data:" _) _);
      reflexivity.
Defined.

Lemma cleanBase64_idempotent_witness :
  cleanBase64 (cleanBase64 "a,b,c") = cleanBase64 "a,b,c".
Proof. exact (proj1 (cleanBase64_idempotent "a,b,c")). Defined.

Lemma cleanJson_unwraps_fence_witness :
  cleanJson (fenced (String "010" "") "{}" (String "010" "")) = "{}"%string.
Proof.
  refine (cleanJson_unwraps_fence (String "010" "") "{}" (String "010" "")
            _ _ _); reflexivity.
Defined.

Lemma fenced_reply_is_read_like_bare_witness :
  detectSignLanguage Host.parse
    (fun _ =>
       Return {| response_text :=
                   Some (fenced " " (String "{" ("x" ++ "}")) " ") |})
    "frame" ASL
  = detectSignLanguage Host.parse
      (fun _ =>
         Return {| response_text := Some (String "{" ("x" ++ "}")) |})
      "frame" ASL.
Proof.
  refine (proj1 (fenced_reply_is_read_like_bare Host.parse " " "x" " " _ _)
            "frame"%string ASL); reflexivity.
Defined.

Lemma framesToProcess_sends_8_to_15_witness :
  length (framesToProcess (Host.frames 16)) = 8.
Proof.
  refine (eq_trans
            (proj1 (framesToProcess_sends_8_to_15 (Host.frames 16) _)) _).
  - vm_compute. lia.
  - vm_compute. reflexivity.
Defined.

Lemma detectSignSentence_request_is_bounded_witness :
  detectSignSentence Host.parse
    (fun request =>
       if length (images request) <=? 15 then Host.answers "+ok"
       else Throw "too many images")
    (Host.frames 40) ASL
  = detectSignSentence Host.parse (fun _ => Host.answers "+ok")
      (Host.frames 40) ASL.
Proof.
  refine (detectSignSentence_request_is_bounded Host.parse _ _ _ _ _).
  intros request Hlen _ _. cbv beta.
  destruct (Nat.leb_spec (length (images request)) 15); [reflexivity | lia].
Defined.

Lemma spoken_is_history_texts_witness :
  spoken (run initial
            [FrameCaptured "f1"; WordReplied (Host.answers "+HELLO") 1 2;
             ModeClicked SENTENCE; RecordClicked; FrameCaptured "f2";
             RecordClicked; SentenceReplied (Host.answers "+Hello") 3 4])
  = map text
      (history
         (run initial
            [FrameCaptured "f1"; WordReplied (Host.answers "+HELLO") 1 2;
             ModeClicked SENTENCE; RecordClicked; FrameCaptured "f2";
             RecordClicked; SentenceReplied (Host.answers "+Hello") 3 4])).
Proof.
  refine (spoken_is_history_texts Host.toLowerCase Host.parse _ _).
  reflexivity.
Defined.

Lemma recording_sends_its_frames_witness :
  sentenceInFlight
    (run (step initial (ModeClicked SENTENCE))
       (RecordClicked :: map FrameCaptured ["f1"; "f2"; "f3"]%string
        ++ [RecordClicked]))
  = sentenceInFlight (step initial (ModeClicked SENTENCE))
    ++ [mkSentenceCall ["f1"; "f2"; "f3"]%string
          (signLanguage (step initial (ModeClicked SENTENCE)))]
  /\ appState
       (run (step initial (ModeClicked SENTENCE))
          (RecordClicked :: map FrameCaptured [] ++ [RecordClicked]))
     = IDLE.
Proof.
  split.
  - refine (proj1 (proj1 (recording_sends_its_frames
                            Host.toLowerCase Host.parse
                            (step initial (ModeClicked SENTENCE))
                            ["f1"; "f2"; "f3"]%string _ _) _)).
    + reflexivity.
    + discriminate.
    + discriminate.
  - refine (proj1 (proj2 (proj2 (recording_sends_its_frames
                                   Host.toLowerCase Host.parse
                                   (step initial (ModeClicked SENTENCE))
                                   [] _ _) _))).
    + reflexivity.
    + discriminate.
    + reflexivity.
Defined.

Lemma rejected_results_leave_no_entry_witness :
  history (step (run initial [FrameCaptured "f1";
                              WordReplied (Host.answers "+HELLO") 1 2;
                              FrameCaptured "f2"])
             (WordReplied (Host.answers "+") 3 4))
  = history (run initial [FrameCaptured "f1";
                          WordReplied (Host.answers "+HELLO") 1 2;
                          FrameCaptured "f2"])
  /\ currentPrediction
       (step (run initial [FrameCaptured "f1";
                           WordReplied (Host.answers "+HELLO") 1 2;
                           FrameCaptured "f2"])
          (WordReplied (Host.answers "+") 3 4))
     = Some {| isSign := true; translation := "HELLO";
               confidence := 1%float;
               description := Some "No clear sign detected" |}.
Proof.
  destruct (proj1 (rejected_results_leave_no_entry
                     Host.toLowerCase Host.parse
                     (run initial [FrameCaptured "f1";
                                   WordReplied (Host.answers "+HELLO") 1 2;
                                   FrameCaptured "f2"])
                     (Host.answers "+") 3%Z 4%Z
                     {| isSign := true; translation := "";
                        confidence := 1%float; description := None |})
              (mkWordCall "f2" ASL) [])
    as (H & _ & _ & P).
  - vm_compute; reflexivity.
  - vm_compute; reflexivity.
  - right. reflexivity.
  - split; [exact H|].
    refine (P {| isSign := true; translation := "HELLO";
                 confidence := 1%float; description := None |} _).
    vm_compute. reflexivity.
Defined.

(** The first word call of a session fails: [appState] was IDLE before the
    call and is SCANNING after it. *)
Lemma failed_call_does_not_restore_appState :
  ~ (forall actions base64Image lang reply t_id t_stamp,
       Screen.scanTimerRuns (session actions) = true ->
       InferenceFailure Host.parse reply ->
       appState
         (Screen.store
            (act (act (session actions) (Screen.ScanTick base64Image lang))
               (Screen.WordReply reply t_id t_stamp)))
       = appState (Screen.store (session actions))).
Proof.
  intros claim.
  specialize (claim [Screen.CameraButton] "f"%string ASL (Throw "offline")
                1%Z 2%Z eq_refl (RequestError Host.parse "offline")).
  vm_compute in claim. discriminate.
Qed.

Lemma mode_switch_is_locked_while_recording_witness :
  framesBufferRef
    (Screen.store
       (act (session [Screen.CameraButton; Screen.ScanTick "f" ASL;
                      Screen.WordReply (Host.answers "+A") 1 2])
          (Screen.ModeButton SENTENCE))) = []
  /\ processingRef
       (Screen.store
          (act (session [Screen.CameraButton; Screen.ScanTick "f" ASL;
                         Screen.WordReply (Host.answers "+A") 1 2])
             (Screen.ModeButton SENTENCE))) = false
  /\ detectionMode
       (Screen.store
          (act (session [Screen.CameraButton; Screen.ScanTick "f" ASL;
                         Screen.WordReply (Host.answers "+A") 1 2])
             (Screen.ModeButton SENTENCE))) = SENTENCE
  /\ act (session [Screen.CameraButton; Screen.ModeButton SENTENCE;
                   Screen.RecordButton])
       (Screen.ModeButton WORD)
     = session [Screen.CameraButton; Screen.ModeButton SENTENCE;
                Screen.RecordButton].
Proof.
  destruct (mode_switch_is_locked_while_recording Host.toLowerCase Host.parse
              [Screen.CameraButton; Screen.ScanTick "f" ASL;
               Screen.WordReply (Host.answers "+A") 1 2] SENTENCE)
    as (_ & _ & Hrest).
  destruct Hrest as (B & G & M); [right; vm_compute; reflexivity|].
  destruct (mode_switch_is_locked_while_recording Host.toLowerCase Host.parse
              [Screen.CameraButton; Screen.ModeButton SENTENCE;
               Screen.RecordButton] WORD)
    as (_ & Hlock & _).
  split; [exact B|]. split; [exact G|]. split.
  - apply M. vm_compute. reflexivity.
  - apply Hlock. vm_compute. reflexivity.
Defined.

Lemma page_at_rest_is_clean_witness :
  framesBufferRef
    (Screen.store
       (session [Screen.CameraButton; Screen.ScanTick "f" ASL;
                 Screen.WordReply (Host.answers "+A") 1 2])) = []
  /\ processingRef
       (Screen.store
          (session [Screen.CameraButton; Screen.ScanTick "f" ASL;
                    Screen.WordReply (Host.answers "+A") 1 2])) = false.
Proof.
  destruct (page_at_rest_is_clean Host.toLowerCase Host.parse
              [Screen.CameraButton; Screen.ScanTick "f" ASL;
               Screen.WordReply (Host.answers "+A") 1 2])
    as (B & G & _).
  - right. vm_compute. reflexivity.
  - split; [exact B | exact G].
Defined.

Lemma page_records_in_sentence_mode_witness :
  detectionMode
    (Screen.store
       (session [Screen.CameraButton; Screen.ModeButton SENTENCE;
                 Screen.RecordButton])) = SENTENCE.
Proof.
  refine (proj1 (page_records_in_sentence_mode Host.toLowerCase Host.parse
                   [Screen.CameraButton; Screen.ModeButton SENTENCE;
                    Screen.RecordButton] _)).
  vm_compute. reflexivity.
Defined.

Lemma page_scan_tick_issues_a_call_witness :
  wordInFlight
    (Screen.store
       (act (session [Screen.CameraButton]) (Screen.ScanTick "f" ISL)))
  = [mkWordCall "f" ISL].
Proof.
  refine (proj1 (proj2 (page_scan_tick_issues_a_call
                          Host.toLowerCase Host.parse
                          [Screen.CameraButton] "f" ISL _))).
  vm_compute. reflexivity.
Defined.

End MoreRuns.

Section AccountRuns.

Import AuthService.

Local Abbreviation register :=
  (AuthService.register Host.toLowerCase HostStorage.stringifyUsers
     HostStorage.parseUsers HostStorage.stringifyUser).
Local Abbreviation login :=
  (AuthService.login Host.toLowerCase HostStorage.parseUsers
     HostStorage.stringifyUser).
Local Abbreviation getCurrentUser :=
  (AuthService.getCurrentUser HostStorage.parseUser).
Local Abbreviation serveAll :=
  (AuthService.serveAll Host.toLowerCase HostStorage.stringifyUsers
     HostStorage.parseUsers HostStorage.stringifyUser).

Lemma pair_eq {A B : Type} (p : A * B) (a : A) :
  fst p = a -> p = (a, snd p).
Proof. intros <-. destruct p; reflexivity. Qed.

Lemma session_follows_the_last_call_witness :
  fst (getCurrentUser
         (snd (register "Ann" "Ann@x.org" "pw" 5 emptyStorage)))
  = Return (Some {| id := "5"; name := "Ann"; email := "Ann@x.org" |}).
Proof.
  refine (proj1 (session_follows_the_last_call Host.toLowerCase
                   HostStorage.stringifyUsers HostStorage.parseUsers
                   HostStorage.stringifyUser HostStorage.parseUser
                   parseUser_stringifyUser stringifyUser_text
                   emptyStorage _)
            "Ann"%string "Ann@x.org"%string "pw"%string 5%Z _ _ _).
  - reflexivity.
  - apply pair_eq. vm_compute. reflexivity.
Defined.

Lemma register_rejects_known_email_witness :
  fst (register "Bob" "ANN@X.ORG" "other" 6
         (snd (register "Ann" "Ann@x.org" "pw" 5 emptyStorage)))
  = Throw "Email already registered".
Proof.
  refine (f_equal fst
            (register_rejects_known_email Host.toLowerCase
               HostStorage.stringifyUsers HostStorage.parseUsers
               HostStorage.stringifyUser
               "Bob" "ANN@X.ORG" "other" 6%Z
               (snd (register "Ann" "Ann@x.org" "pw" 5 emptyStorage))
               [ {| account := {| id := "5"; name := "Ann";
                                  email := "Ann@x.org" |};
                    password := "pw" |} ]
               {| account := {| id := "5"; name := "Ann";
                                email := "Ann@x.org" |};
                  password := "pw" |} _ _ _)).
  - vm_compute. reflexivity.
  - left. reflexivity.
  - vm_compute. reflexivity.
Defined.

Lemma login_requires_matching_account_witness :
  fst (login "ann@x.org" "guess"
         (snd (register "Ann" "Ann@x.org" "pw" 5 emptyStorage)))
  = Throw "Invalid email or password".
Proof.
  refine (f_equal fst
            (proj2 (login_requires_matching_account Host.toLowerCase
                      HostStorage.parseUsers HostStorage.stringifyUser
                      "ann@x.org" "guess"
                      (snd (register "Ann" "Ann@x.org" "pw" 5 emptyStorage)))
               [ {| account := {| id := "5"; name := "Ann";
                                  email := "Ann@x.org" |};
                    password := "pw" |} ] _ _)).
  - vm_compute. reflexivity.
  - intros u [<-|[]] _. discriminate.
Defined.

Lemma denied_storage_keeps_nothing_witness :
  fst (login "ann@x.org" "pw"
         (snd (register "Ann" "ann@x.org" "pw" 5
                 {| items := fun _ => None; denied := true |})))
  = Throw "Invalid email or password".
Proof.
  destruct (denied_storage_keeps_nothing Host.toLowerCase
              HostStorage.stringifyUsers HostStorage.parseUsers
              HostStorage.stringifyUser HostStorage.parseUser
              {| items := fun _ => None; denied := true |} eq_refl)
    as (L & R & _).
  rewrite R. cbn [snd]. rewrite L. reflexivity.
Defined.

Lemma accounts_grow_with_distinct_emails_witness :
  exists more,
    accounts HostStorage.parseUsers
      (serveAll emptyStorage
         [Register "Ann" "Ann@x.org" "pw" 5;
          Register "Eve" "ANN@X.ORG" "pw2" 6;
          Logout;
          Register "Bob" "bob@x.org" "pw3" 7])
    = Return ([] ++ more) /\
    NoDup (map (emailKey Host.toLowerCase) ([] ++ more)) /\
    denied
      (serveAll emptyStorage
         [Register "Ann" "Ann@x.org" "pw" 5;
          Register "Eve" "ANN@X.ORG" "pw2" 6;
          Logout;
          Register "Bob" "bob@x.org" "pw3" 7]) = false.
Proof.
  refine (accounts_grow_with_distinct_emails Host.toLowerCase
            HostStorage.stringifyUsers HostStorage.parseUsers
            HostStorage.stringifyUser
            parseUsers_stringifyUsers stringifyUsers_text
            emptyStorage [] _ _ _ _).
  - reflexivity.
  - reflexivity.
  - constructor.
Defined.

Lemma registered_user_can_always_log_in_witness :
  fst (login "ANN@X.ORG" "pw"
         (serveAll (snd (register "Ann" "Ann@x.org" "pw" 5 emptyStorage))
            [Logout; Register "Bob" "bob@x.org" "pw3" 7]))
  = Return {| id := "5"; name := "Ann"; email := "Ann@x.org" |}.
Proof.
  refine (proj2 (registered_user_can_always_log_in Host.toLowerCase
                   HostStorage.stringifyUsers HostStorage.parseUsers
                   HostStorage.stringifyUser
                   parseUsers_stringifyUsers stringifyUsers_text
                   emptyStorage
                   (snd (register "Ann" "Ann@x.org" "pw" 5 emptyStorage))
                   "Ann" "Ann@x.org" "pw" 5%Z
                   {| id := "5"; name := "Ann"; email := "Ann@x.org" |}
                   [Logout; Register "Bob" "bob@x.org" "pw3" 7]
                   "ANN@X.ORG" _ _ _)).
  - reflexivity.
  - apply pair_eq. vm_compute. reflexivity.
  - vm_compute. reflexivity.
Defined.

End AccountRuns.
